(** * SecuxKeyring: a shallow embedding of [src/keyring/eth-secux-keyring.js]

    The keyring is a JavaScript class whose methods mutate the fields of
    [this], talk to a hardware device through promises and throw or reject
    with [Error] objects.  The embedding keeps that shape:

    - the fields of [this] are the record [Session];
    - a method is a function in the monad [M], which threads the session,
      appends the device calls and timers it issues to a trace, and ends
      either normally or with a thrown (rejected) value;
    - numbers are [Z] (all the numbers of the keyring are small integers,
      on which JavaScript arithmetic is exact), the [paths] object is a
      finite map from strings, buffers are lists of bytes;
    - the cryptographic libraries (hdkey, ethereumjs-util, @ethereumjs/tx)
      and the device are interfaces, [EthLib] and [Device]. *)

From Stdlib Require Import ZArith List String Ascii Lia.
From Stdlib.Strings Require Import Byte.
From stdpp Require Import base strings gmap pretty.
Import ListNotations.

Local Open Scope Z_scope.
Local Open Scope string_scope.
Local Open Scope list_scope.

(** ** JavaScript values the keyring throws and catches *)

Module Js.

(** An [Error] object: its [name] and its [message]. *)
Record Exn : Type := mkExn { exn_name : string; exn_message : string }.

Definition Error (m : string) : Exn := mkExn "Error" m.
Definition TypeError (m : string) : Exn := mkExn "TypeError" m.
Definition ReferenceError (m : string) : Exn := mkExn "ReferenceError" m.

(** [Error.prototype.toString]. *)
Definition exn_toString (e : Exn) : string :=
  if String.eqb (exn_name e) "" then exn_message e
  else if String.eqb (exn_message e) "" then exn_name e
  else exn_name e +:+ ": " +:+ exn_message e.

(** What a promise is rejected with, or what a [throw] carries: an [Error]
    object, a bare string, or [undefined]. *)
Inductive Thrown : Type :=
  | ThrownExn (e : Exn)
  | ThrownString (s : string)
  | ThrownUndefined.

(** How a call ends: with a value, or with a thrown value (for a promise:
    fulfilled, or rejected). *)
Inductive Completion (A : Type) : Type :=
  | Normal (a : A)
  | Throw (t : Thrown).
Arguments Normal {A} a.
Arguments Throw {A} t.

(** [x || d] on strings: the empty string is falsy. *)
Definition str_or (x : option string) (d : string) : string :=
  match x with
  | Some s => if String.eqb s "" then d else s
  | None => d
  end.

(** [x || d] on numbers: [undefined] and [0] are falsy. *)
Definition num_or (x : option Z) (d : Z) : Z :=
  match x with
  | Some n => if Z.eqb n 0 then d else n
  | None => d
  end.

(** [e && e.toString()]: [undefined] and the empty string are falsy. *)
Definition thrown_toString (t : Thrown) : option string :=
  match t with
  | ThrownExn e => Some (exn_toString e)
  | ThrownString s => Some s
  | ThrownUndefined => None
  end.

(** [new Error((e && e.toString()) || 'Unknown error')]. *)
Definition wrap_error (t : Thrown) : Exn :=
  Error (str_or (thrown_toString t) "Unknown error").

(** *** Buffers *)

Definition Buf : Type := list byte.

Definition hex_digit (n : N) : ascii :=
  match n with
  | 0%N => "0" | 1%N => "1" | 2%N => "2" | 3%N => "3"
  | 4%N => "4" | 5%N => "5" | 6%N => "6" | 7%N => "7"
  | 8%N => "8" | 9%N => "9" | 10%N => "a" | 11%N => "b"
  | 12%N => "c" | 13%N => "d" | 14%N => "e" | _ => "f"
  end%char.

Definition hex_value (c : ascii) : option N :=
  let n := N_of_ascii c in
  if ((48 <=? n) && (n <=? 57))%N then Some (n - 48)%N
  else if ((97 <=? n) && (n <=? 102))%N then Some (n - 87)%N
  else if ((65 <=? n) && (n <=? 70))%N then Some (n - 55)%N
  else None.

(** [buf.toString('hex')]. *)
Fixpoint buf_toHex (b : Buf) : string :=
  match b with
  | [] => ""
  | x :: b' =>
      let n := Byte.to_N x in
      String (hex_digit (n / 16)) (String (hex_digit (n mod 16)) (buf_toHex b'))
  end.

(** [Buffer.from(s, 'hex')]: pairs of hex digits, up to the first pair that
    is not one. *)
Fixpoint buf_fromHex (s : string) : Buf :=
  match s with
  | String c1 (String c2 s') =>
      match hex_value c1, hex_value c2 with
      | Some h, Some l =>
          match Byte.of_N (16 * h + l) with
          | Some x => x :: buf_fromHex s'
          | None => []
          end
      | _, _ => []
      end
  | _ => []
  end.

(** [buf.slice(from, to)] and [buf.slice(from)] for [0 <= from <= to]. *)
Definition buf_slice (b : Buf) (from to : nat) : Buf :=
  firstn (to - from) (skipn from b).
Definition buf_slice_from (b : Buf) (from : nat) : Buf := skipn from b.

(** [ethUtil.addHexPrefix]. *)
Definition addHexPrefix (s : string) : string :=
  match s with
  | String "0" (String "x" _) => s
  | _ => "0x" +:+ s
  end.

(** A number in a template literal. *)
Definition num_toString (n : Z) : string := pretty n.

End Js.
Import Js.

(** [s.toLowerCase()] on ASCII strings. *)
Definition ascii_toLowerCase (c : ascii) : ascii :=
  let n := N_of_ascii c in
  if ((65 <=? n) && (n <=? 90))%N then ascii_of_N (n + 32) else c.

Fixpoint toLowerCase (s : string) : string :=
  match s with
  | EmptyString => EmptyString
  | String c s' => String (ascii_toLowerCase c) (toLowerCase s')
  end.

(** [arr.includes(x)] on an array of strings. *)
Definition includes (x : string) (arr : list string) : bool :=
  existsb (String.eqb x) arr.

(** ** Transactions, the device and the libraries *)

(** What [tx.toJSON()] returns, with the [type], [r], [s] and [v] that
    [signTransaction] writes into it.  The values are opaque to the keyring. *)
Record TxData : Type := mkTxData {
  json_type : option Z;
  json_chainId : option string;
  json_nonce : option string;
  json_maxPriorityFeePerGas : option string;
  json_maxFeePerGas : option string;
  json_gasPrice : option string;
  json_gasLimit : option string;
  json_to : option string;
  json_value : option string;
  json_accessList : option string;
  json_data : option string;
  json_r : option Buf;
  json_s : option Buf;
  json_v : option Buf
}.

(** The object literal [signTransaction] hands to the device. *)
Record TxFields : Type := mkTxFields {
  chainId : option string;
  nonce : option string;
  maxPriorityFeePerGas : option string;
  maxFeePerGas : option string;
  gasLimit : option string;
  to : option string;
  value : option string;
  accessList : option string;
  data : option string
}.

Record XPubPayload : Type := mkXPubPayload {
  payload_publicKey : option string;
  payload_chainCode : option string;
  payload_error : option string
}.

Record XPubResponse : Type := mkXPubResponse {
  success : bool;
  payload : option XPubPayload
}.

Record SignResponse : Type := mkSignResponse {
  signature : option Buf
}.

(** The device: [device.getXPublickey] and the three calls made through
    [SecuxETH].  Each returns how its promise settles.  A signing response
    of [None] is a [null] response. *)
Record Device : Type := mkDevice {
  getXPublickey : string -> Completion XPubResponse;
  SecuxETH_getAddress : string -> Completion string;
  SecuxETH_signTransaction : string -> TxFields -> Completion (option SignResponse);
  SecuxETH_signMessage : string -> string -> Completion (option SignResponse)
}.

(** The [hdk] object: a public key and a chain code, absent until set. *)
Record HDKey : Type := mkHDKey {
  hdk_publicKey : option Buf;
  hdk_chainCode : option Buf
}.

(** hdkey, ethereumjs-util and @ethereumjs/tx.  Every call may throw. *)
Class EthLib : Type := {
  Tx : Type;
  Common : Type;
  tx_toJSON : Tx -> TxData;
  tx_type : Tx -> Z;
  tx_common : Tx -> Common;
  (** [TransactionFactory.fromTxData(txData, {common, freeze: true})] *)
  fromTxData : TxData -> Common -> Completion Tx;
  (** [tx.getSenderAddress().toString('hex')] *)
  getSenderAddress : Tx -> Completion string;
  toChecksumAddress : string -> Completion string;
  (** [ethUtil.publicToAddress(key, true)] *)
  publicToAddress : option Buf -> Completion Buf;
  (** [hdk.derive(path)] *)
  derive : HDKey -> string -> Completion HDKey
}.

(** ** Session state: the fields of [this] *)

Record Session : Type := mkSession {
  accounts : list string;
  hdk : option HDKey;
  page : Z;
  perPage : Z;
  unlockedAccount : Z;
  paths : gmap string Z;
  hdPath : string
}.

Definition set_accounts (a : list string) (s : Session) : Session :=
  mkSession a (hdk s) (page s) (perPage s) (unlockedAccount s) (paths s) (hdPath s).
Definition set_hdk (h : option HDKey) (s : Session) : Session :=
  mkSession (accounts s) h (page s) (perPage s) (unlockedAccount s) (paths s) (hdPath s).
Definition set_page (p : Z) (s : Session) : Session :=
  mkSession (accounts s) (hdk s) p (perPage s) (unlockedAccount s) (paths s) (hdPath s).
Definition set_perPage (p : Z) (s : Session) : Session :=
  mkSession (accounts s) (hdk s) (page s) p (unlockedAccount s) (paths s) (hdPath s).
Definition set_unlockedAccount (u : Z) (s : Session) : Session :=
  mkSession (accounts s) (hdk s) (page s) (perPage s) u (paths s) (hdPath s).
Definition set_paths (m : gmap string Z) (s : Session) : Session :=
  mkSession (accounts s) (hdk s) (page s) (perPage s) (unlockedAccount s) m (hdPath s).
Definition set_hdPath (p : string) (s : Session) : Session :=
  mkSession (accounts s) (hdk s) (page s) (perPage s) (unlockedAccount s) (paths s) p.

(** The constructor's [opts], and the argument of [deserialize]: every
    field may be missing. *)
Record Opts : Type := mkOpts {
  opts_hdPath : option string;
  opts_accounts : option (list string);
  opts_page : option Z;
  opts_paths : option (gmap string Z);
  opts_perPage : option Z;
  opts_unlockedAccount : option Z
}.

Definition no_opts : Opts := mkOpts None None None None None None.

(** What [serialize] resolves with. *)
Record Snapshot : Type := mkSnapshot {
  snap_hdPath : string;
  snap_accounts : list string;
  snap_page : Z;
  snap_paths : gmap string Z;
  snap_perPage : Z;
  snap_unlockedAccount : Z
}.

(** A snapshot passed as [opts]. *)
Definition snapshot_opts (snap : Snapshot) : Opts :=
  mkOpts (Some (snap_hdPath snap)) (Some (snap_accounts snap))
         (Some (snap_page snap)) (Some (snap_paths snap))
         (Some (snap_perPage snap)) (Some (snap_unlockedAccount snap)).

(** ** What a method does to the outside world *)

Inductive Event : Type :=
  | EvGetXPublickey (path : string)
  | EvGetAddress (path : string)
  | EvSignTransaction (path : string) (fields : TxFields)
  | EvSignMessage (path : string) (message : string)
  | EvSetTimeout (ms : Z).

(** How the promise of [signPersonalMessage] ends.  An exception that
    escapes the timer callback reaches neither [resolve] nor [reject]. *)
Inductive Settle (A : Type) : Type :=
  | Fulfilled (a : A)
  | Rejected (t : Thrown)
  | Unsettled (uncaught : Thrown).
Arguments Fulfilled {A} a.
Arguments Rejected {A} t.
Arguments Unsettled {A} uncaught.

(** ** The monad of methods *)

Definition M (A : Type) : Type := Session -> Session * list Event * Completion A.

Definition ret {A} (a : A) : M A := fun s => (s, [], Normal a).

Definition bind {A B} (m : M A) (k : A -> M B) : M B := fun s =>
  let '(s1, t1, r) := m s in
  match r with
  | Normal a => let '(s2, t2, r2) := k a s1 in (s2, t1 ++ t2, r2)
  | Throw e => (s1, t1, Throw e)
  end.

Definition throw {A} (e : Exn) : M A := fun s => (s, [], Throw (ThrownExn e)).

(** A library call, or [await] on a promise that has settled. *)
Definition lift {A} (c : Completion A) : M A := fun s => (s, [], c).

Definition gets {A} (f : Session -> A) : M A := fun s => (s, [], Normal (f s)).

Definition modify (f : Session -> Session) : M unit := fun s => (f s, [], Normal tt).

Definition emit (ev : Event) : M unit := fun s => (s, [ev], Normal tt).

(** [try { m } catch (e) { h(e) }], and [promise.catch(h)]. *)
Definition catch {A} (m : M A) (h : Thrown -> M A) : M A := fun s =>
  let '(s1, t1, r) := m s in
  match r with
  | Normal a => (s1, t1, Normal a)
  | Throw e => let '(s2, t2, r2) := h e s1 in (s2, t1 ++ t2, r2)
  end.

Notation "'do' x <- m ; k" := (bind m (fun x => k))
  (at level 10, x name, m at level 100, k at level 200).
Notation "'run' m ; k" := (bind m (fun _ => k))
  (at level 10, m at level 100, k at level 200).

(** [for (let i = from; i < to; i++) acc = body(i, acc)]: the loops of the
    keyring, which update the session and a local array as they go. *)
Fixpoint for_steps {A} (n : nat) (i : Z) (body : Z -> A -> M A) (acc : A) : M A :=
  match n with
  | O => ret acc
  | S n' => do acc' <- body i acc; for_steps n' (i + 1) body acc'
  end.

Definition for_range {A} (from upto : Z) (body : Z -> A -> M A) (acc : A) : M A :=
  for_steps (Z.to_nat (upto - from)) from body acc.


(** [m] does not change the part [f] of the session. *)
Definition preserves {X A} (f : Session -> X) (m : M A) : Prop :=
  forall s, f (fst (fst (m s))) = f s.

(** [m] calls neither the device nor a timer. *)
Definition silent {A} (m : M A) : Prop :=
  forall s, snd (fst (m s)) = [].

(** ** The keyring *)

Definition hdPathString : string := "m/44'/60'/0'/0/0".
Definition keyringType : string := "Secux Hardware".
Definition pathBase : string := "m".
Definition MAX_INDEX : Z := 1000.
Definition DELAY_BETWEEN_POPUPS : Z := 1000.

(** The messages of the errors the engine raises (V8's wording). *)
Definition msg_set_null (prop : string) : string :=
  "Cannot set properties of null (setting '" +:+ prop +:+ "')".
Definition msg_read_null (prop : string) : string :=
  "Cannot read properties of null (reading '" +:+ prop +:+ "')".
Definition msg_read_undefined (prop : string) : string :=
  "Cannot read properties of undefined (reading '" +:+ prop +:+ "')".
Definition msg_buffer_from : string :=
  "The first argument must be of type string or an instance of Buffer, ArrayBuffer, or Array or an Array-like Object. Received undefined".

(** An entry of the page [__getPage] resolves with; [balance] is [null]. *)
Record AccountEntry : Type := mkAccountEntry {
  address : string;
  balance : option Z;
  index : Z
}.

Section Keyring.

Context `{L : EthLib}.
Variable device : Device.

Definition snapshot_of (s : Session) : Snapshot :=
  mkSnapshot (hdPath s) (accounts s) (page s) (paths s)
             (perPage s) (unlockedAccount s).

Definition serialize : M Snapshot := gets snapshot_of.

Definition deserialize (opts : Opts) : M unit :=
  run modify (set_hdPath (str_or (opts_hdPath opts) hdPathString));
  run modify (set_accounts (default [] (opts_accounts opts)));
  run modify (set_page (num_or (opts_page opts) 0));
  modify (set_perPage (num_or (opts_perPage opts) 5)).

(** The fields as the constructor sets them before it calls
    [deserialize]; [hdPath] is not set yet. *)
Definition constructor_fields : Session :=
  mkSession [] None 0 5 0 ∅ "".

Definition constructor (opts : Opts) : Session :=
  fst (fst (deserialize opts constructor_fields)).

(** [Boolean(this.hdk && this.hdk.publicKey)]; a buffer is truthy. *)
Definition isUnlocked (s : Session) : bool :=
  match hdk s with
  | Some h => match hdk_publicKey h with Some _ => true | None => false end
  | None => false
  end.

(** [this.hdk.publicKey = v] and [this.hdk.chainCode = v]. *)
Definition assign_publicKey (v : Buf) : M unit :=
  do h <- gets hdk;
  match h with
  | None => throw (TypeError (msg_set_null "publicKey"))
  | Some k => modify (set_hdk (Some (mkHDKey (Some v) (hdk_chainCode k))))
  end.

Definition assign_chainCode (v : Buf) : M unit :=
  do h <- gets hdk;
  match h with
  | None => throw (TypeError (msg_set_null "chainCode"))
  | Some k => modify (set_hdk (Some (mkHDKey (hdk_publicKey k) (Some v))))
  end.

(** [Buffer.from(response.payload.<field>, 'hex')]. *)
Definition payload_buffer (response : XPubResponse)
    (field : XPubPayload -> option string) (name : string) : M Buf :=
  match payload response with
  | None => throw (TypeError (msg_read_undefined name))
  | Some p =>
      match field p with
      | None => throw (TypeError msg_buffer_from)
      | Some hex => ret (buf_fromHex hex)
      end
  end.

(** The [.then] callback of [unlock].  It ends by settling the promise of
    [unlock], [Normal] of a resolution or a rejection, or by throwing. *)
Definition unlock_then (response : XPubResponse) : M (Completion string) :=
  if success response then
    do pk <- payload_buffer response payload_publicKey "publicKey";
    run assign_publicKey pk;
    do cc <- payload_buffer response payload_chainCode "chainCode";
    run assign_chainCode cc;
    ret (Normal "just unlocked")
  else
    ret (Throw (ThrownExn (Error
      (str_or (match payload response with
               | Some p => payload_error p
               | None => None
               end) "Unknown error")))).

Definition unlock : M string :=
  do unlocked <- gets isUnlocked;
  if unlocked then ret "already unlocked"
  else
    do p <- gets hdPath;
    run emit (EvGetXPublickey p);
    do settled <-
      catch (do response <- lift (getXPublickey device p); unlock_then response)
            (fun e => ret (Throw (ThrownExn (wrap_error e))));
    lift settled.

(** [parseInt(index, 10)] of an integer is that integer. *)
Definition setAccountToUnlock (index : Z) : M unit :=
  modify (set_unlockedAccount index).

Definition _addressFromIndex (pathBase : string) (i : Z) : M string :=
  do h <- gets hdk;
  match h with
  | None => throw (TypeError (msg_read_null "derive"))
  | Some k =>
      do dkey <- lift (derive k (pathBase +:+ "/" +:+ num_toString i));
      do address <- lift (publicToAddress (hdk_publicKey dkey));
      lift (toChecksumAddress ("0x" +:+ buf_toHex address))
  end.

(** [if (!accounts.includes(address)) accounts.push(address)]. *)
Definition push_new (accs : list string) (address : string) : list string :=
  if includes address accs then accs else accs ++ [address].

Definition addAccounts_body (i : Z) (_ : unit) : M unit :=
  do address <- _addressFromIndex pathBase i;
  run modify (fun s => set_accounts (push_new (accounts s) address) s);
  modify (set_page 0).

Definition addAccounts (n : Z) : M (list string) :=
  do _ <- unlock;
  do from <- gets unlockedAccount;
  let upto := from + n in
  run for_range from upto addAccounts_body tt;
  gets accounts.

Definition getPage_body (i : Z) (accounts : list AccountEntry) : M (list AccountEntry) :=
  do address <- _addressFromIndex pathBase i;
  do key <- lift (toChecksumAddress address);
  run modify (fun s => set_paths (<[key := i]> (paths s)) s);
  ret (accounts ++ [mkAccountEntry address None i]).

Definition __getPage (increment : Z) : M (list AccountEntry) :=
  run modify (fun s => set_page (page s + increment) s);
  do p <- gets page;
  run (if (p <=? 0)%Z then modify (set_page 1) else ret tt);
  do _ <- unlock;
  do p <- gets page;
  do pp <- gets perPage;
  let from := (p - 1) * pp in
  let upto := from + pp in
  for_range from upto getPage_body [].

Definition getFirstPage : M (list AccountEntry) :=
  run modify (set_page 0);
  __getPage 1.

Definition getNextPage : M (list AccountEntry) := __getPage 1.

Definition getPreviousPage : M (list AccountEntry) := __getPage (-1).

Definition getAccounts : M (list string) :=
  do p <- gets hdPath;
  run emit (EvGetAddress p);
  do address <- lift (SecuxETH_getAddress device p);
  run modify (set_accounts [address]);
  gets accounts.

Definition removeAccount (address : string) : M unit :=
  do accs <- gets accounts;
  if negb (includes (toLowerCase address) (map toLowerCase accs)) then
    throw (Error ("Address " +:+ address +:+ " not found in this keyring"))
  else
    modify (set_accounts
      (List.filter (fun a => negb (String.eqb (toLowerCase a) (toLowerCase address)))
                   accs)).

(** The scan of [_pathFromAddress]: [for (let i = 0; i < MAX_INDEX; i++)]
    with its [break]. *)
Fixpoint scan_steps (n : nat) (i : Z) (checksummedAddress : string) : M (option Z) :=
  match n with
  | O => ret None
  | S n' =>
      do a <- _addressFromIndex pathBase i;
      if String.eqb checksummedAddress a then ret (Some i)
      else scan_steps n' (i + 1) checksummedAddress
  end.

Definition UnknownAddressError : Exn := Error "Unknown address".

Definition _pathFromAddress (address : string) : M string :=
  do checksummedAddress <- lift (toChecksumAddress address);
  do known <- gets paths;
  do index <-
    match known !! checksummedAddress with
    | Some i => ret (Some i)
    | None => scan_steps (Z.to_nat MAX_INDEX) 0 checksummedAddress
    end;
  match index with
  | None => throw UnknownAddressError
  | Some i => do p <- gets hdPath; ret (p +:+ "/" +:+ num_toString i)
  end.

Definition device_fields (txData : TxData) : TxFields :=
  mkTxFields (json_chainId txData) (json_nonce txData)
             (json_maxPriorityFeePerGas txData) (json_maxFeePerGas txData)
             (json_gasLimit txData) (json_to txData) (json_value txData)
             (json_accessList txData) (json_data txData).

Definition with_type (t : Z) (d : TxData) : TxData :=
  mkTxData (Some t) (json_chainId d) (json_nonce d)
           (json_maxPriorityFeePerGas d) (json_maxFeePerGas d) (json_gasPrice d)
           (json_gasLimit d) (json_to d) (json_value d) (json_accessList d)
           (json_data d) (json_r d) (json_s d) (json_v d).

Definition with_signature (sig : Buf) (d : TxData) : TxData :=
  mkTxData (json_type d) (json_chainId d) (json_nonce d)
           (json_maxPriorityFeePerGas d) (json_maxFeePerGas d) (json_gasPrice d)
           (json_gasLimit d) (json_to d) (json_value d) (json_accessList d)
           (json_data d)
           (Some (buf_slice sig 0 32)) (Some (buf_slice sig 32 64))
           (Some (buf_slice_from sig 64)).

(** [response.signature] of the response to a signing call. *)
Definition response_signature (response : option SignResponse) : M Buf :=
  match response with
  | None => throw (TypeError (msg_read_null "signature"))
  | Some r =>
      match signature r with
      | None => throw (TypeError (msg_read_undefined "slice"))
      | Some sig => ret sig
      end
  end.

(** The signer of a signed transaction, as [signTransaction] recovers it:
    [toChecksumAddress(addHexPrefix(tx.getSenderAddress().toString('hex')))]. *)
Definition recovered_signer (signedTx : Tx) : Completion string :=
  match getSenderAddress signedTx with
  | Normal sender => toChecksumAddress (addHexPrefix sender)
  | Throw e => Throw e
  end.

Definition SignerMismatchError : Exn :=
  Error "signature doesn't match the right address".

Definition signTransaction (address : string) (tx : Tx) : M Tx :=
  let txData := with_type (tx_type tx) (tx_toJSON tx) in
  do p <- gets hdPath;
  run emit (EvSignTransaction p (device_fields txData));
  do response <- lift (SecuxETH_signTransaction device p (device_fields txData));
  do sig <- response_signature response;
  let txData := with_signature sig txData in
  do newOrMutatedTx <- lift (fromTxData txData (tx_common tx));
  do addressSignedWith <- lift (recovered_signer newOrMutatedTx);
  do correctAddress <- lift (toChecksumAddress address);
  if negb (String.eqb addressSignedWith correctAddress) then
    throw SignerMismatchError
  else ret newOrMutatedTx.

(** The callback [signPersonalMessage] hands to [setTimeout].  It ends by
    settling the promise, or by throwing: the path is computed in the
    callback, outside of any [.then]. *)
Definition signPersonalMessage_callback (withAccount message : string)
    : M (Completion string) :=
  do path <- _pathFromAddress withAccount;
  run emit (EvSignMessage path message);
  catch
    (do response <- lift (SecuxETH_signMessage device path message);
     match response with
     | Some r =>
         match signature r with
         | Some sig => ret (Normal ("0x" +:+ buf_toHex sig))
         | None => throw (TypeError (msg_read_undefined "toString"))
         end
     | None => throw (TypeError (msg_read_null "payload"))
     end)
    (fun e => ret (Throw (ThrownExn (wrap_error e)))).

Definition popup_delay (status : string) : Z :=
  if String.eqb status "just unlocked" then DELAY_BETWEEN_POPUPS else 0.

Definition signPersonalMessage (withAccount message : string)
    : Session -> Session * list Event * Settle string := fun s =>
  let '(s1, t1, r) := unlock s in
  match r with
  | Throw e => (s1, t1, Rejected (ThrownExn (wrap_error e)))
  | Normal status =>
      let '(s2, t2, r2) :=
        (run emit (EvSetTimeout (popup_delay status));
         signPersonalMessage_callback withAccount message) s1 in
      (s2, t1 ++ t2,
       match r2 with
       | Normal (Normal sig) => Fulfilled sig
       | Normal (Throw e) => Rejected e
       | Throw e => Unsettled e
       end)
  end.

Definition signMessage (withAccount data : string)
    : Session -> Session * list Event * Settle string :=
  signPersonalMessage withAccount data.

Definition signTypedData : M unit := throw (Error "Not supported on this device").

Definition exportAccount : M unit := throw (Error "Not supported on this device").

(** [new HDKey()]: the module binds no [HDKey]. *)
Definition new_HDKey : M HDKey := throw (ReferenceError "HDKey is not defined").

Definition forgetDevice : M unit :=
  run modify (set_accounts []);
  do h <- new_HDKey;
  run modify (set_hdk (Some h));
  run modify (set_page 0);
  run modify (set_unlockedAccount 0);
  modify (set_paths ∅).

End Keyring.

(** ** A test double: libraries and devices small enough to run

    Addresses are 20 bytes.  The child key of a path is the path's
    characters followed by the parent key, an address is the first 20 bytes
    of a key, checksumming lower-cases a [0x] string, and the signer of a
    transaction is read off the first 20 bytes of [r]. *)

Module Mock.

Definition string_bytes (s : string) : Buf :=
  map byte_of_ascii (list_ascii_of_string s).

Definition mock_derive (k : HDKey) (path : string) : Completion HDKey :=
  match hdk_publicKey k, hdk_chainCode k with
  | Some pk, Some cc => Normal (mkHDKey (Some (string_bytes path ++ pk)) (Some cc))
  | _, _ => Throw (ThrownExn (Error "Could not derive: key material missing"))
  end.

Definition mock_publicToAddress (k : option Buf) : Completion Buf :=
  match k with
  | Some pk => Normal (firstn 20 pk)
  | None => Throw (ThrownExn (TypeError "This method only supports Buffer"))
  end.

Definition mock_toChecksumAddress (a : string) : Completion string :=
  match a with
  | String "0" (String "x" _) => Normal (toLowerCase a)
  | _ => Throw (ThrownExn (Error "This method only supports 0x-prefixed hex strings"))
  end.

Definition mock_getSenderAddress (d : TxData) : Completion string :=
  match json_r d with
  | Some r => Normal (buf_toHex (firstn 20 r))
  | None => Throw (ThrownExn (Error "Missing values to derive sender address"))
  end.

#[local] Instance lib : EthLib := {|
  Tx := TxData;
  Common := unit;
  tx_toJSON := fun d => d;
  tx_type := fun d => default 0 (json_type d);
  tx_common := fun _ => tt;
  fromTxData := fun d _ => Normal d;
  getSenderAddress := mock_getSenderAddress;
  toChecksumAddress := mock_toChecksumAddress;
  publicToAddress := mock_publicToAddress;
  derive := mock_derive
|}.

(** A 33-byte key and a chain code, in hex, as the device sends them. *)
Definition publicKeyHex : string :=
  "02a1b2c3d4e5f60718293a4b5c6d7e8f90a1b2c3d4e5f60718293a4b5c6d7e8f90".
Definition chainCodeHex : string :=
  "0c0c0c0c0c0c0c0c0c0c0c0c0c0c0c0c0c0c0c0c0c0c0c0c0c0c0c0c0c0c0c0c".

Definition handshake_ok : XPubResponse :=
  mkXPubResponse true (Some (mkXPubPayload (Some publicKeyHex) (Some chainCodeHex) None)).

(** The address the device holds at every path, and a 65-byte signature
    made by it. *)
Definition deviceAddress : string := "0x1111111111111111111111111111111111111111".

Definition signatureOf (signer : Buf) : Buf :=
  firstn 20 signer ++ repeat x00 44 ++ [x1b].

Definition deviceSignature : Buf := signatureOf (repeat x11 20).

(** A device that answers every call. *)
Definition device_ok : Device :=
  mkDevice (fun _ => Normal handshake_ok)
           (fun _ => Normal deviceAddress)
           (fun _ _ => Normal (Some (mkSignResponse (Some deviceSignature))))
           (fun _ _ => Normal (Some (mkSignResponse (Some deviceSignature)))).

(** A device that reports a failure of its own, without a message. *)
Definition device_refusing : Device :=
  mkDevice (fun _ => Normal (mkXPubResponse false None))
           (fun _ => Normal deviceAddress)
           (fun _ _ => Normal None)
           (fun _ _ => Normal None).

(** A device that cannot be reached: the transport rejects with
    [undefined]. *)
Definition device_unreachable : Device :=
  mkDevice (fun _ => Throw ThrownUndefined)
           (fun _ => Throw ThrownUndefined)
           (fun _ _ => Throw ThrownUndefined)
           (fun _ _ => Throw ThrownUndefined).

(** A plain transaction. *)
Definition tx0 : TxData :=
  mkTxData (Some 2) (Some "0x1") (Some "0x0") (Some "0x1") (Some "0x2") None
           (Some "0x5208") (Some "0x2222222222222222222222222222222222222222")
           (Some "0x0") None (Some "0x") None None None.

(** A session whose [hdk] is an object holding the device's key. *)
Definition hdk_ok : HDKey :=
  mkHDKey (Some (buf_fromHex publicKeyHex)) (Some (buf_fromHex chainCodeHex)).

Definition hdk_empty : HDKey := mkHDKey None None.

End Mock.

(** ** The specification's sentences, as they are written *)

Section Stated.

Context `{L : EthLib}.
Variable device : Device.

(** The address the keyring derives at an index: the result of
    [_addressFromIndex], which neither changes the session nor calls the
    device. *)
Definition derived_address (s : Session) (i : Z) : Completion string :=
  snd (_addressFromIndex pathBase i s).

(** An index at which the scan of [_pathFromAddress] goes on: the address
    is derived and is not the one looked for. *)
Definition scan_misses (s : Session) (checksummedAddress : string) (i : Z) : bool :=
  match derived_address s i with
  | Normal a => negb (String.eqb checksummedAddress a)
  | Throw _ => false
  end.

(** The fields [signTransaction] sends to the device for [tx]. *)
Definition sent_fields (tx : Tx) : TxFields :=
  device_fields (with_type (tx_type tx) (tx_toJSON tx)).

(** The transaction [signTransaction] rebuilds from [tx] and a signature. *)
Definition rebuilt (tx : Tx) (sig : Buf) : Completion Tx :=
  fromTxData (with_signature sig (with_type (tx_type tx) (tx_toJSON tx)))
             (tx_common tx).

(** Invariant (a): every known account has an entry in [paths]. *)
Definition accounts_indexed (s : Session) : Prop :=
  forall a, In a (accounts s) -> is_Some (paths s !! a).

(** [signTransaction] resolves the path of [address] first, fails as the
    resolution fails, and asks the device to sign for the resolved path. *)
Definition signs_for_resolved_path (s : Session) (address : string) (tx : Tx) : Prop :=
  match snd (_pathFromAddress address s) with
  | Normal path =>
      exists fields rest,
        snd (fst (signTransaction device address tx s))
        = EvSignTransaction path fields :: rest
  | Throw e =>
      snd (fst (signTransaction device address tx s)) = []
      /\ snd (signTransaction device address tx s) = Throw e
  end.

(** A session restored from the snapshot of [s] has the accounts, the
    path index, the page and the page size of [s], and is locked. *)
Definition roundtrip_exact (s : Session) : Prop :=
  let s' := constructor (snapshot_opts (snapshot_of s)) in
  accounts s' = accounts s /\ paths s' = paths s /\ page s' = page s
  /\ perPage s' = perPage s /\ isUnlocked s' = false.

(** [addAccounts] keeps invariant (a). *)
Definition addAccounts_indexes (s : Session) (n : Z) : Prop :=
  accounts_indexed s -> accounts_indexed (fst (fst (addAccounts device n s))).

(** A scan of [_pathFromAddress] that finds index [i] leaves it in
    [paths]. *)
Definition scan_caches (s : Session) (address : string) : Prop :=
  forall c i,
    toChecksumAddress address = Normal c ->
    paths s !! c = None ->
    snd (_pathFromAddress address s)
    = Normal (hdPath s +:+ "/" +:+ num_toString i) ->
    paths (fst (fst (_pathFromAddress address s))) !! c = Some i.

(** [getAccounts] changes nothing and returns the stored accounts. *)
Definition getAccounts_reads_only (s : Session) : Prop :=
  fst (fst (getAccounts device s)) = s
  /\ snd (getAccounts device s) = Normal (accounts s).

End Stated.

(** The two kinds of failure of [unlock] in the specification. *)
Inductive FailureKind : Type := DeviceError | TransportError.

(** The failures of [unlock] can be told apart: some classification of
    what [unlock] rejects with says [DeviceError] whenever the device
    reported the failure, and [TransportError] whenever the call to the
    device failed. *)
Definition unlock_failures_distinguishable : Prop :=
  exists kind_of : Thrown -> FailureKind,
    forall (device : Device) (s : Session),
      isUnlocked s = false ->
      (forall response,
          getXPublickey device (hdPath s) = Normal response ->
          success response = false ->
          exists t, snd (unlock device s) = Throw t /\ kind_of t = DeviceError)
      /\ (forall e,
          getXPublickey device (hdPath s) = Throw e ->
          exists t, snd (unlock device s) = Throw t /\ kind_of t = TransportError).

(** The three requests for a page. *)
Inductive PageRequest : Type := FirstPage | NextPage | PreviousPage.

Definition request_page (device : Device) `{L : EthLib} (r : PageRequest)
    : M (list AccountEntry) :=
  match r with
  | FirstPage => getFirstPage device
  | NextPage => getNextPage device
  | PreviousPage => getPreviousPage device
  end.

(** The session after a sequence of page requests, each awaited, whatever
    their outcomes. *)
Fixpoint after_requests (device : Device) `{L : EthLib} (rs : list PageRequest)
    (s : Session) : Session :=
  match rs with
  | [] => s
  | r :: rs' => after_requests device rs' (fst (fst (request_page device r s)))
  end.

(** Sessions used as examples. *)
Module Examples.

Import Mock.

Definition fresh : Session := constructor no_opts.

(** A session whose [hdk] is an object without a key yet. *)
Definition locked_with_hdk : Session := set_hdk (Some hdk_empty) fresh.

(** A session whose [hdk] holds the device's key. *)
Definition unlocked : Session := set_hdk (Some hdk_ok) fresh.

(** The addresses [Mock.lib] derives from [hdk_ok] at indices 0 and 3, the
    latter also with upper-case digits, and an address it derives at no
    index. *)
Definition address0 : string := "0x6d2f3002a1b2c3d4e5f60718293a4b5c6d7e8f90".
Definition address3 : string := "0x6d2f3302a1b2c3d4e5f60718293a4b5c6d7e8f90".
Definition address3_upper : string := "0x6D2F3302A1B2C3D4E5F60718293A4B5C6D7E8F90".
Definition stranger : string := "0x2222222222222222222222222222222222222222".

(** An unlocked session that has seen index 3 on a page. *)
Definition indexed : Session :=
  set_paths {[ address3 := 3 ]} (set_accounts [address3] unlocked).

(** A session restored with two accounts. *)
Definition restored : Session :=
  constructor (mkOpts None (Some [address0; address3]) None None None None).

End Examples.

(** ** The sessions a keyring can be in

    The public methods, and the sessions reached from a newly constructed
    keyring by calling them one after the other. *)

Section Reachable.

Context `{L : EthLib}.
Variable device : Device.

Inductive Call : Type :=
  | CallDeserialize (opts : Opts)
  | CallSerialize
  | CallUnlock
  | CallSetAccountToUnlock (index : Z)
  | CallAddAccounts (n : Z)
  | CallGetPage (r : PageRequest)
  | CallGetAccounts
  | CallRemoveAccount (address : string)
  | CallSignTransaction (address : string) (tx : Tx)
  | CallSignMessage (withAccount message : string)
  | CallSignPersonalMessage (withAccount message : string)
  | CallSignTypedData
  | CallExportAccount
  | CallForgetDevice.

(** The session a call leaves behind. *)
Definition after_call (c : Call) (s : Session) : Session :=
  match c with
  | CallDeserialize opts => fst (fst (deserialize opts s))
  | CallSerialize => fst (fst (serialize s))
  | CallUnlock => fst (fst (unlock device s))
  | CallSetAccountToUnlock index => fst (fst (setAccountToUnlock index s))
  | CallAddAccounts n => fst (fst (addAccounts device n s))
  | CallGetPage r => fst (fst (request_page device r s))
  | CallGetAccounts => fst (fst (getAccounts device s))
  | CallRemoveAccount address => fst (fst (removeAccount address s))
  | CallSignTransaction address tx => fst (fst (signTransaction device address tx s))
  | CallSignMessage withAccount message =>
      fst (fst (signMessage device withAccount message s))
  | CallSignPersonalMessage withAccount message =>
      fst (fst (signPersonalMessage device withAccount message s))
  | CallSignTypedData => fst (fst (signTypedData s))
  | CallExportAccount => fst (fst (exportAccount s))
  | CallForgetDevice => fst (fst (forgetDevice s))
  end.

(** The calls that set the page back to its initial value. *)
Definition resets_page (c : Call) : bool :=
  match c with
  | CallDeserialize _ | CallAddAccounts _ => true
  | _ => false
  end.

Inductive reachable : Session -> Prop :=
  | reachable_new opts : reachable (constructor opts)
  | reachable_call c s : reachable s -> reachable (after_call c s).

End Reachable.

(** ** Further vocabulary for the methods *)

(** [m] keeps the property [P] of the session, however it ends. *)
Definition keeps {A} (P : Session -> Prop) (m : M A) : Prop :=
  forall s, P s -> P (fst (fst (m s))).

(** The entries of a page that starts at index [i] and shows [addrs]. *)
Fixpoint entries_from (i : Z) (addrs : list string) : list AccountEntry :=
  match addrs with
  | [] => []
  | a :: addrs' => mkAccountEntry a None i :: entries_from (i + 1) addrs'
  end.

(** The path index after the keys of a page that starts at index [i] are
    written to it, one after the other. *)
Fixpoint register_keys (i : Z) (keys : list string) (m : gmap string Z)
    : gmap string Z :=
  match keys with
  | [] => m
  | k :: keys' => register_keys (i + 1) keys' (<[k := i]> m)
  end.

(** The calls that take the accounts from their argument. *)
Definition restores_accounts `{L : EthLib} (c : Call) : bool :=
  match c with
  | CallDeserialize _ => true
  | _ => false
  end.

(** The calls that write the account cursor. *)
Definition sets_cursor `{L : EthLib} (c : Call) : bool :=
  match c with
  | CallSetAccountToUnlock _ => true
  | _ => false
  end.

(** The calls that may write the path index. *)
Definition requests_page `{L : EthLib} (c : Call) : bool :=
  match c with
  | CallGetPage _ => true
  | _ => false
  end.

(** The session after a sequence of calls, each awaited, whatever their
    outcomes. *)
Fixpoint after_calls `{L : EthLib} (device : Device) (cs : list Call)
    (s : Session) : Session :=
  match cs with
  | [] => s
  | c :: cs' => after_calls device cs' (after_call device c s)
  end.

(** Once a page has been requested, the page is at least 1 after whatever
    calls come next. *)
Definition page_floor_after `{L : EthLib} (device : Device) (r : PageRequest)
    (cs : list Call) (s : Session) : Prop :=
  1 <= page (after_calls device cs (fst (fst (request_page device r s)))).

Module MoreExamples.

Import Mock Examples.

(** A keyring holding one account twice, in two spellings, and another. *)
Definition mixed_case : Session :=
  set_accounts ["0xAbCd"; "0x1234"; "0xabcd"] fresh.

(** A device whose handshake carries a key and no chain code. *)
Definition device_half : Device :=
  mkDevice (fun _ => Normal (mkXPubResponse true
              (Some (mkXPubPayload (Some publicKeyHex) None None))))
           (SecuxETH_getAddress device_ok)
           (SecuxETH_signTransaction device_ok)
           (SecuxETH_signMessage device_ok).

(** A device that shakes hands and then fails to sign, with an [Error]. *)
Definition device_rejecting : Device :=
  mkDevice (getXPublickey device_ok)
           (SecuxETH_getAddress device_ok)
           (fun _ _ => Throw (ThrownExn (Error "user rejected")))
           (fun _ _ => Throw (ThrownExn (Error "user rejected"))).

(** A library whose derivation fails from index 2 on. *)
Definition derive_until_2 (k : HDKey) (path : string) : Completion HDKey :=
  if String.eqb path "m/0" || String.eqb path "m/1" then mock_derive k path
  else Throw (ThrownExn (Error "Could not derive")).

#[local] Instance failing_lib : EthLib := {|
  Tx := TxData;
  Common := unit;
  tx_toJSON := fun d => d;
  tx_type := fun d => default 0 (json_type d);
  tx_common := fun _ => tt;
  fromTxData := fun d _ => Normal d;
  getSenderAddress := mock_getSenderAddress;
  toChecksumAddress := mock_toChecksumAddress;
  publicToAddress := mock_publicToAddress;
  derive := derive_until_2
|}.

Definition address1 : string := "0x6d2f3102a1b2c3d4e5f60718293a4b5c6d7e8f90".
Definition address2 : string := "0x6d2f3202a1b2c3d4e5f60718293a4b5c6d7e8f90".
Definition address4 : string := "0x6d2f3402a1b2c3d4e5f60718293a4b5c6d7e8f90".

End MoreExamples.

(** * Properties *)

Example buf_hex_roundtrip : buf_toHex (buf_fromHex "02aBff1") = "02abff".
Proof. reflexivity. Qed.

Example num_toString_examples :
  num_toString 3 = "3" /\ num_toString 1000 = "1000" /\ num_toString (-12) = "-12".
Proof. repeat split; reflexivity. Qed.

(** ** Stepping through a method *)

Section Stepping.

Context {A B : Type}.

Lemma bind_ret (a : A) (k : A -> M B) s : bind (ret a) k s = k a s.
Proof. unfold bind, ret. destruct (k a s) as [[s2 t2] r2]. reflexivity. Qed.

Lemma bind_gets (f : Session -> A) (k : A -> M B) s : bind (gets f) k s = k (f s) s.
Proof. unfold bind, gets. destruct (k (f s) s) as [[s2 t2] r2]. reflexivity. Qed.

Lemma bind_modify (f : Session -> Session) (k : unit -> M B) s :
  bind (modify f) k s = k tt (f s).
Proof. unfold bind, modify. destruct (k tt (f s)) as [[s2 t2] r2]. reflexivity. Qed.

Lemma bind_lift_Normal (a : A) (k : A -> M B) s : bind (lift (Normal a)) k s = k a s.
Proof. unfold bind, lift. destruct (k a s) as [[s2 t2] r2]. reflexivity. Qed.

Lemma bind_lift_Throw (e : Thrown) (k : A -> M B) s :
  bind (lift (Throw e)) k s = (s, [], Throw e).
Proof. reflexivity. Qed.

Lemma bind_throw (e : Exn) (k : A -> M B) s :
  bind (throw e) k s = (s, [], Throw (ThrownExn e)).
Proof. reflexivity. Qed.

Lemma bind_emit (ev : Event) (k : unit -> M B) s :
  bind (emit ev) k s =
  (fst (fst (k tt s)), ev :: snd (fst (k tt s)), snd (k tt s)).
Proof. unfold bind, emit. destruct (k tt s) as [[s2 t2] r2]. reflexivity. Qed.

End Stepping.

#[local] Arguments bind {A B} m k s : simpl never.
#[local] Arguments catch {A} m h s : simpl never.

Lemma catch_Normal {A} (m : M A) (h : Thrown -> M A) s s1 t1 a :
  m s = (s1, t1, Normal a) -> catch m h s = (s1, t1, Normal a).
Proof. intros H. unfold catch. rewrite H. reflexivity. Qed.

Lemma catch_Throw {A} (m : M A) (h : Thrown -> M A) s s1 t1 e :
  m s = (s1, t1, Throw e) ->
  catch m h s
  = (fst (fst (h e s1)), t1 ++ snd (fst (h e s1)), snd (h e s1)).
Proof.
  intros H. unfold catch. rewrite H. destruct (h e s1) as [[s2 t2] r2]. reflexivity.
Qed.

Lemma bind_Normal {A B} (m : M A) (k : A -> M B) s s1 t1 a :
  m s = (s1, t1, Normal a) ->
  bind m k s = (fst (fst (k a s1)), t1 ++ snd (fst (k a s1)), snd (k a s1)).
Proof.
  intros H. unfold bind. rewrite H. destruct (k a s1) as [[s2 t2] r2]. reflexivity.
Qed.

Lemma bind_Throw {A B} (m : M A) (k : A -> M B) s s1 t1 e :
  m s = (s1, t1, Throw e) -> bind m k s = (s1, t1, Throw e).
Proof. intros H. unfold bind. rewrite H. reflexivity. Qed.

Lemma bind_assoc {A B C} (m : M A) (f : A -> M B) (g : B -> M C) s :
  bind (bind m f) g s = bind m (fun x => bind (f x) g) s.
Proof.
  unfold bind. destruct (m s) as [[s1 t1] [a | e]]; [| reflexivity].
  destruct (f a s1) as [[s2 t2] [b | e]]; [| reflexivity].
  destruct (g b s2) as [[s3 t3] r3]. rewrite <- app_assoc. reflexivity.
Qed.

Create Rewrite HintDb step.
#[local] Hint Rewrite @bind_ret @bind_gets @bind_modify @bind_lift_Normal
  @bind_lift_Throw @bind_throw @bind_emit @bind_assoc : step.

(** ** What a method leaves alone *)

Section Frames.

Context {X : Type} (f : Session -> X).

Lemma preserves_ret {A} (a : A) : preserves f (ret a).
Proof. intros s. reflexivity. Qed.

Lemma preserves_gets {A} (g : Session -> A) : preserves f (gets g).
Proof. intros s. reflexivity. Qed.

Lemma preserves_lift {A} (c : Completion A) : preserves f (lift c).
Proof. intros s. reflexivity. Qed.

Lemma preserves_throw {A} (e : Exn) : preserves f (@throw A e).
Proof. intros s. reflexivity. Qed.

Lemma preserves_emit (ev : Event) : preserves f (emit ev).
Proof. intros s. reflexivity. Qed.

Lemma preserves_modify (g : Session -> Session) :
  (forall s, f (g s) = f s) -> preserves f (modify g).
Proof. intros Hg s. apply Hg. Qed.

Lemma preserves_bind {A B} (m : M A) (k : A -> M B) :
  preserves f m -> (forall a, preserves f (k a)) -> preserves f (bind m k).
Proof.
  intros Hm Hk s. unfold bind.
  specialize (Hm s). destruct (m s) as [[s1 t1] [a | e]]; simpl in *.
  - specialize (Hk a s1). destruct (k a s1) as [[s2 t2] r2]; simpl in *. congruence.
  - exact Hm.
Qed.

Lemma preserves_catch {A} (m : M A) (h : Thrown -> M A) :
  preserves f m -> (forall e, preserves f (h e)) -> preserves f (catch m h).
Proof.
  intros Hm Hh s. unfold catch.
  specialize (Hm s). destruct (m s) as [[s1 t1] [a | e]]; simpl in *.
  - exact Hm.
  - specialize (Hh e s1). destruct (h e s1) as [[s2 t2] r2]; simpl in *. congruence.
Qed.

Lemma preserves_for_steps {A} (body : Z -> A -> M A) :
  (forall i acc, preserves f (body i acc)) ->
  forall n i acc, preserves f (for_steps n i body acc).
Proof.
  intros Hbody n. induction n as [| n IH]; intros i acc; simpl.
  - apply preserves_ret.
  - apply preserves_bind; [apply Hbody | intros acc'; apply IH].
Qed.

End Frames.

Section Silence.

Lemma silent_ret {A} (a : A) : silent (ret a).
Proof. intros s. reflexivity. Qed.

Lemma silent_gets {A} (g : Session -> A) : silent (gets g).
Proof. intros s. reflexivity. Qed.

Lemma silent_lift {A} (c : Completion A) : silent (lift c).
Proof. intros s. reflexivity. Qed.

Lemma silent_throw {A} (e : Exn) : silent (@throw A e).
Proof. intros s. reflexivity. Qed.

Lemma silent_modify (g : Session -> Session) : silent (modify g).
Proof. intros s. reflexivity. Qed.

Lemma silent_bind {A B} (m : M A) (k : A -> M B) :
  silent m -> (forall a, silent (k a)) -> silent (bind m k).
Proof.
  intros Hm Hk s. unfold bind.
  specialize (Hm s). destruct (m s) as [[s1 t1] [a | e]]; simpl in *.
  - specialize (Hk a s1). destruct (k a s1) as [[s2 t2] r2]; simpl in *.
    subst. reflexivity.
  - exact Hm.
Qed.

End Silence.

(** Frame goals: peel the method apart along its binds and branches. *)
Ltac frame_step :=
  first
    [ apply preserves_ret | apply preserves_gets | apply preserves_lift
    | apply preserves_throw | apply preserves_emit
    | apply preserves_modify; intros; reflexivity
    | apply preserves_bind; [| intros ?]
    | apply preserves_catch; [| intros ?]
    | apply preserves_for_steps; intros ? ?
    | apply silent_ret | apply silent_gets | apply silent_lift
    | apply silent_throw | apply silent_modify
    | apply silent_bind; [| intros ?]
    | match goal with
      | |- preserves _ (if ?b then _ else _) => destruct b
      | |- preserves _ (match ?x with _ => _ end) => destruct x
      | |- silent (if ?b then _ else _) => destruct b
      | |- silent (match ?x with _ => _ end) => destruct x
      end ].

Ltac frame := repeat frame_step.

Section KeyringFrames.

Context `{L : EthLib}.
Variable device : Device.

(** Deriving an address reads [hdk] and nothing else happens. *)
Lemma _addressFromIndex_pure base i s :
  _addressFromIndex base i s = (s, [], snd (_addressFromIndex base i s)).
Proof.
  unfold _addressFromIndex. autorewrite with step.
  destruct (hdk s) as [k |]; [| reflexivity].
  destruct (derive k _) as [dkey | e]; autorewrite with step; [| reflexivity].
  destruct (publicToAddress _) as [a | e]; autorewrite with step; reflexivity.
Qed.

Lemma _addressFromIndex_same_hdk base i s s' :
  hdk s = hdk s' ->
  snd (_addressFromIndex base i s) = snd (_addressFromIndex base i s').
Proof.
  intros H. unfold _addressFromIndex. autorewrite with step. rewrite <- H.
  destruct (hdk s) as [k |]; [| reflexivity].
  destruct (derive k _) as [dkey | e]; autorewrite with step; [| reflexivity].
  destruct (publicToAddress _) as [a | e]; autorewrite with step; reflexivity.
Qed.

Lemma bind_addressFromIndex {B} i (k : string -> M B) s :
  bind (_addressFromIndex pathBase i) k s =
  match derived_address s i with
  | Normal a => k a s
  | Throw e => (s, [], Throw e)
  end.
Proof.
  unfold derived_address, bind.
  pose proof (_addressFromIndex_pure pathBase i s) as H.
  destruct (_addressFromIndex pathBase i s) as [[s1 t1] r]. simpl in H.
  injection H as -> ->. simpl.
  destruct r as [a | e]; [| reflexivity].
  destruct (k a s) as [[s2 t2] r2]. reflexivity.
Qed.

End KeyringFrames.

(** ** unlock *)

Ltac steps := repeat (progress (autorewrite with step; simpl)).

Section Unlock.

Variable device : Device.

Lemma unlock_already s :
  isUnlocked s = true -> unlock device s = (s, [], Normal "already unlocked").
Proof. intros H. unfold unlock. autorewrite with step. rewrite H. reflexivity. Qed.

(** The handshake fails in transit. *)
Lemma unlock_transport_failure s e :
  isUnlocked s = false ->
  getXPublickey device (hdPath s) = Throw e ->
  unlock device s
  = (s, [EvGetXPublickey (hdPath s)], Throw (ThrownExn (wrap_error e))).
Proof.
  intros Hl He. unfold unlock. autorewrite with step. rewrite Hl.
  autorewrite with step.
  erewrite bind_Normal; cycle 1.
  { erewrite catch_Throw; cycle 1.
    - rewrite He. reflexivity.
    - reflexivity. }
  reflexivity.
Qed.

(** The device answers that it failed. *)
Lemma unlock_device_failure s response :
  isUnlocked s = false ->
  getXPublickey device (hdPath s) = Normal response ->
  success response = false ->
  unlock device s
  = (s, [EvGetXPublickey (hdPath s)],
     Throw (ThrownExn (Error
       (str_or (match payload response with
                | Some p => payload_error p
                | None => None
                end) "Unknown error")))).
Proof.
  intros Hl Hr Hs. unfold unlock. autorewrite with step. rewrite Hl.
  autorewrite with step.
  erewrite bind_Normal; cycle 1.
  { erewrite catch_Normal; cycle 1.
    - rewrite Hr. autorewrite with step. unfold unlock_then. rewrite Hs. reflexivity.
    - reflexivity. }
  reflexivity.
Qed.

(** The device answers with a key, and [hdk] is [null]. *)
Lemma unlock_success_null_hdk s pk cc err :
  hdk s = None ->
  getXPublickey device (hdPath s)
  = Normal (mkXPubResponse true (Some (mkXPubPayload (Some pk) (Some cc) err))) ->
  unlock device s
  = (s, [EvGetXPublickey (hdPath s)],
     Throw (ThrownExn (Error
       "TypeError: Cannot set properties of null (setting 'publicKey')"))).
Proof.
  intros Hh Hr. unfold unlock. autorewrite with step.
  unfold isUnlocked. rewrite Hh. autorewrite with step.
  erewrite bind_Normal; cycle 1.
  { erewrite catch_Throw; cycle 1.
    - rewrite Hr. autorewrite with step.
      unfold unlock_then, payload_buffer, assign_publicKey. steps.
      rewrite Hh. steps. reflexivity.
    - reflexivity. }
  reflexivity.
Qed.

(** The device answers with a key, and [hdk] is an object without one. *)
Lemma unlock_success_hdk s k pk cc err :
  hdk s = Some k ->
  hdk_publicKey k = None ->
  getXPublickey device (hdPath s)
  = Normal (mkXPubResponse true (Some (mkXPubPayload (Some pk) (Some cc) err))) ->
  unlock device s
  = (set_hdk (Some (mkHDKey (Some (buf_fromHex pk)) (Some (buf_fromHex cc)))) s,
     [EvGetXPublickey (hdPath s)], Normal "just unlocked").
Proof.
  intros Hh Hk Hr. unfold unlock. autorewrite with step.
  unfold isUnlocked. rewrite Hh, Hk. autorewrite with step.
  erewrite bind_Normal; cycle 1.
  { erewrite catch_Normal; cycle 1.
    - rewrite Hr. autorewrite with step.
      unfold unlock_then, payload_buffer, assign_publicKey, assign_chainCode. steps.
      rewrite Hh. steps. reflexivity.
    - reflexivity. }
  reflexivity.
Qed.

(** [unlock] writes to [hdk] only. *)
Lemma unlock_preserves {X} (f : Session -> X) :
  (forall h s, f (set_hdk h s) = f s) -> preserves f (unlock device).
Proof.
  intros Hf. unfold unlock, unlock_then, payload_buffer, assign_publicKey,
    assign_chainCode.
  frame; apply preserves_modify; intros; apply Hf.
Qed.

(** [unlock] resolves with one of two strings; a session in which it has
    resolved is unlocked, and the handshake was made exactly when the
    session was locked. *)
Lemma unlock_resolves s s1 t1 status :
  unlock device s = (s1, t1, Normal status) ->
  (status = "already unlocked" /\ isUnlocked s = true /\ s1 = s /\ t1 = [])
  \/ (status = "just unlocked" /\ isUnlocked s = false
      /\ t1 = [EvGetXPublickey (hdPath s)] /\ isUnlocked s1 = true).
Proof.
  destruct (isUnlocked s) eqn:Hl.
  - rewrite unlock_already by assumption. intros [= <- <- <-]. left. auto.
  - intros H. right. revert H.
    unfold unlock. autorewrite with step. rewrite Hl. autorewrite with step.
    unfold unlock_then, payload_buffer, assign_publicKey, assign_chainCode.
    unfold catch, bind, gets, throw, modify, lift, ret.
    destruct (getXPublickey device (hdPath s)) as [response | e]; simpl;
      [| discriminate].
    destruct (success response); simpl; [| discriminate].
    destruct (payload response) as [p |]; simpl; [| discriminate].
    destruct (payload_publicKey p) as [pk |]; simpl; [| discriminate].
    destruct (hdk s) as [k |]; simpl; [| discriminate].
    destruct (payload_chainCode p) as [cc |]; simpl; [| discriminate].
    intros [= <- <- <-]. auto.
Qed.

End Unlock.

(** ** Construction and serialization *)

Lemma constructor_fields_of opts :
  constructor opts
  = mkSession (default [] (opts_accounts opts)) None (num_or (opts_page opts) 0)
              (num_or (opts_perPage opts) 5) 0 ∅
              (str_or (opts_hdPath opts) hdPathString).
Proof. reflexivity. Qed.

Lemma deserialize_fields opts t :
  deserialize opts t
  = (mkSession (default [] (opts_accounts opts)) (hdk t) (num_or (opts_page opts) 0)
               (num_or (opts_perPage opts) 5) (unlockedAccount t) (paths t)
               (str_or (opts_hdPath opts) hdPathString),
     [], Normal tt).
Proof. reflexivity. Qed.

Lemma num_or_Some_0 n : num_or (Some n) 0 = n.
Proof. unfold num_or. destruct (Z.eqb_spec n 0); congruence. Qed.

(** C3, as written, fails: a session that has a path index loses it on the
    way through a snapshot. *)
Lemma roundtrip_loses_pathIndex : ~ roundtrip_exact Examples.indexed.
Proof.
  unfold roundtrip_exact. intros (_ & Hpaths & _).
  assert (H : (∅ : gmap string Z) !! Examples.address3 = Some 3).
  { rewrite constructor_fields_of in Hpaths. simpl in Hpaths. rewrite Hpaths.
    apply lookup_insert_eq. }
  rewrite lookup_empty in H. discriminate.
Qed.

(** C3, amended: [deserialize] applied to the snapshot of [s] gives the
    receiving session the accounts and the page of [s], its page size
    unless that is 0 (then 5) and its path template unless that is empty
    (then the default); it leaves the receiver's path index, account cursor
    and key as they were, and calls no device.  Into a newly constructed
    keyring that means an empty path index and a locked session. *)
Theorem roundtrip_restores (s t : Session) :
  let s' := fst (fst (deserialize (snapshot_opts (snapshot_of s)) t)) in
  let fresh := constructor (snapshot_opts (snapshot_of s)) in
  (accounts s' = accounts s
   /\ page s' = page s
   /\ perPage s' = (if Z.eqb (perPage s) 0 then 5 else perPage s)
   /\ hdPath s' = (if String.eqb (hdPath s) "" then hdPathString else hdPath s)
   /\ paths s' = paths t
   /\ unlockedAccount s' = unlockedAccount t
   /\ hdk s' = hdk t
   /\ snd (fst (deserialize (snapshot_opts (snapshot_of s)) t)) = [])
  /\ (accounts fresh = accounts s
      /\ page fresh = page s
      /\ perPage fresh = (if Z.eqb (perPage s) 0 then 5 else perPage s)
      /\ paths fresh = ∅
      /\ unlockedAccount fresh = 0
      /\ isUnlocked fresh = false).
Proof.
  rewrite deserialize_fields, constructor_fields_of.
  cbn [snapshot_opts snapshot_of opts_page opts_accounts opts_perPage opts_hdPath
       snap_page snap_accounts snap_perPage snap_hdPath fst snd
       accounts page perPage hdPath paths unlockedAccount hdk].
  rewrite num_or_Some_0. repeat split; reflexivity.
Qed.

(** ** The outcomes of unlock *)

(** C4 fails on the code: the constructor leaves [hdk] at [null], so the
    handshake's key cannot be stored.  On a newly constructed keyring, with
    a device whose handshake succeeds, a first [unlock] is rejected and
    stores nothing, and a second one asks the device again and is rejected
    again: two handshakes, and neither "just unlocked" nor "already
    unlocked". *)
Theorem unlock_twice_after_construction (opts : Opts) :
  let s0 := constructor opts in
  let first := unlock Mock.device_ok s0 in
  let second := unlock Mock.device_ok (fst (fst first)) in
  let rejection :=
    ThrownExn (Error "TypeError: Cannot set properties of null (setting 'publicKey')") in
  snd first = Throw rejection
  /\ fst (fst first) = s0
  /\ snd second = Throw rejection
  /\ hdk (fst (fst second)) = None
  /\ snd (fst first) ++ snd (fst second)
     = [EvGetXPublickey (hdPath s0); EvGetXPublickey (hdPath s0)].
Proof.
  intros s0 first second rejection. subst first second.
  assert (H : unlock Mock.device_ok s0
              = (s0, [EvGetXPublickey (hdPath s0)], Throw rejection)).
  { eapply unlock_success_null_hdk; reflexivity. }
  rewrite H. cbn [fst snd]. rewrite H. cbn [fst snd app].
  repeat split; reflexivity.
Qed.

(** In a session whose [hdk] is an object, two calls of [unlock] resolve
    with "just unlocked" then "already unlocked", make one handshake, and
    the first stores the key. *)
Lemma unlock_twice_with_hdk (device : Device) s k pk cc err :
  hdk s = Some k ->
  hdk_publicKey k = None ->
  getXPublickey device (hdPath s)
  = Normal (mkXPubResponse true (Some (mkXPubPayload (Some pk) (Some cc) err))) ->
  let first := unlock device s in
  let second := unlock device (fst (fst first)) in
  snd first = Normal "just unlocked"
  /\ snd second = Normal "already unlocked"
  /\ snd (fst first) ++ snd (fst second) = [EvGetXPublickey (hdPath s)]
  /\ hdk (fst (fst first))
     = Some (mkHDKey (Some (buf_fromHex pk)) (Some (buf_fromHex cc))).
Proof.
  intros Hh Hk Hr first second. subst first second.
  rewrite (unlock_success_hdk device s k pk cc err Hh Hk Hr). cbn [fst snd].
  rewrite unlock_already by reflexivity. repeat split; reflexivity.
Qed.

(** C6, as written, fails: a device that reports a failure without a
    message and a transport that rejects without a value make [unlock]
    reject with the same error. *)
Lemma unlock_failures_coincide : ~ unlock_failures_distinguishable.
Proof.
  intros [kind_of H].
  destruct (H Mock.device_refusing Examples.fresh eq_refl) as [Hdev _].
  destruct (H Mock.device_unreachable Examples.fresh eq_refl) as [_ Htr].
  destruct (Hdev _ eq_refl eq_refl) as (t1 & E1 & K1).
  destruct (Htr _ eq_refl) as (t2 & E2 & K2).
  vm_compute in E1, E2. injection E1 as <-. injection E2 as <-.
  congruence.
Qed.

(** A device that reports a message and a transport that fails with an
    [Error] of its own are confused in the same way. *)
Lemma unlock_failure_messages_coincide :
  let reporting :=
    mkDevice (fun _ => Normal (mkXPubResponse false
                (Some (mkXPubPayload None None (Some "Error: device disconnected")))))
             (SecuxETH_getAddress Mock.device_ok)
             (SecuxETH_signTransaction Mock.device_ok)
             (SecuxETH_signMessage Mock.device_ok) in
  let disconnected :=
    mkDevice (fun _ => Throw (ThrownExn (Error "device disconnected")))
             (SecuxETH_getAddress Mock.device_ok)
             (SecuxETH_signTransaction Mock.device_ok)
             (SecuxETH_signMessage Mock.device_ok) in
  unlock reporting Examples.fresh = unlock disconnected Examples.fresh.
Proof. reflexivity. Qed.

(** C6, amended: in a locked session [unlock] makes one handshake and,
    when the device reports a failure, rejects with an [Error] whose
    message is the device's, or "Unknown error" when it gave none; when the
    call itself fails, it rejects with an [Error] whose message is the
    failure's text, or "Unknown error" when it has none.  Both are plain
    [Error] objects and the session is unchanged. *)
Theorem unlock_failures (device : Device) (s : Session) :
  isUnlocked s = false ->
  (forall response,
      getXPublickey device (hdPath s) = Normal response ->
      success response = false ->
      unlock device s
      = (s, [EvGetXPublickey (hdPath s)],
         Throw (ThrownExn (Error
           (str_or (match payload response with
                    | Some p => payload_error p
                    | None => None
                    end) "Unknown error")))))
  /\ (forall e,
      getXPublickey device (hdPath s) = Throw e ->
      unlock device s
      = (s, [EvGetXPublickey (hdPath s)],
         Throw (ThrownExn (Error (str_or (thrown_toString e) "Unknown error"))))).
Proof.
  intros Hl. split.
  - intros response Hr Hs. apply unlock_device_failure; assumption.
  - intros e He. apply unlock_transport_failure; assumption.
Qed.

Lemma unlock_failures_witness :
  unlock Mock.device_refusing Examples.fresh
  = (Examples.fresh, [EvGetXPublickey hdPathString],
     Throw (ThrownExn (Error "Unknown error")))
  /\ unlock Mock.device_unreachable Examples.fresh
     = (Examples.fresh, [EvGetXPublickey hdPathString],
        Throw (ThrownExn (Error "Unknown error"))).
Proof.
  split.
  - exact (proj1 (unlock_failures Mock.device_refusing Examples.fresh eq_refl)
                 (mkXPubResponse false None) eq_refl eq_refl).
  - exact (proj2 (unlock_failures Mock.device_unreachable Examples.fresh eq_refl)
                 ThrownUndefined eq_refl).
Defined.

(** ** The pagination cursor *)

Section Pagination.

Context `{L : EthLib}.
Variable device : Device.

Lemma _addressFromIndex_preserves {X} (f : Session -> X) base i :
  preserves f (_addressFromIndex base i).
Proof. intros s. rewrite _addressFromIndex_pure. reflexivity. Qed.

Lemma getPage_body_preserves {X} (f : Session -> X) i acc :
  (forall m s, f (set_paths m s) = f s) -> preserves f (getPage_body i acc).
Proof.
  intros Hf. unfold getPage_body.
  apply preserves_bind; [apply _addressFromIndex_preserves | intros a].
  frame. apply preserves_modify. intros s. apply Hf.
Qed.

(** After the cursor is moved, [__getPage] writes to [hdk] and [paths]
    only. *)
Lemma __getPage_page increment s :
  page (fst (fst (__getPage device increment s))) = Z.max (page s + increment) 1.
Proof.
  unfold __getPage. rewrite bind_modify, bind_gets.
  cbn [page set_page].
  assert (Htail : forall s1,
    page (fst (fst ((
      do _ <- unlock device;
      do p <- gets page;
      do pp <- gets perPage;
      for_range ((p - 1) * pp) ((p - 1) * pp + pp) getPage_body []) s1))) = page s1).
  { intros s1.
    apply (preserves_bind page); [apply unlock_preserves; reflexivity | intros _].
    apply preserves_bind; [apply preserves_gets | intros p].
    apply preserves_bind; [apply preserves_gets | intros pp].
    apply preserves_for_steps. intros i acc.
    apply getPage_body_preserves. reflexivity. }
  destruct (Z.leb_spec (page s + increment) 0) as [Hle | Hgt].
  - rewrite bind_modify, Htail. cbn [page set_page]. lia.
  - rewrite bind_ret, Htail. cbn [page set_page]. lia.
Qed.

Lemma request_page_floor r s : 1 <= page (fst (fst (request_page device r s))).
Proof.
  destruct r; simpl; unfold getFirstPage, getNextPage, getPreviousPage;
    try rewrite bind_modify; rewrite __getPage_page; lia.
Qed.

Lemma after_requests_floor rs s :
  1 <= page s -> 1 <= page (after_requests device rs s).
Proof.
  revert s. induction rs as [| r rs IH]; intros s Hs; simpl.
  - exact Hs.
  - apply IH. apply request_page_floor.
Qed.

End Pagination.

(** ** signTransaction *)

Section SignTransaction.

Context `{L : EthLib}.
Variable device : Device.

(** [signTransaction], step by step: one request to the device, for
    [hdPath]; the session is not written to. *)
Lemma signTransaction_steps address tx s :
  signTransaction device address tx s
  = (s, [EvSignTransaction (hdPath s) (sent_fields tx)],
     match SecuxETH_signTransaction device (hdPath s) (sent_fields tx) with
     | Throw e => Throw e
     | Normal None => Throw (ThrownExn (TypeError (msg_read_null "signature")))
     | Normal (Some r) =>
         match signature r with
         | None => Throw (ThrownExn (TypeError (msg_read_undefined "slice")))
         | Some sig =>
             match rebuilt tx sig with
             | Throw e => Throw e
             | Normal newOrMutatedTx =>
                 match recovered_signer newOrMutatedTx with
                 | Throw e => Throw e
                 | Normal addressSignedWith =>
                     match toChecksumAddress address with
                     | Throw e => Throw e
                     | Normal correctAddress =>
                         if String.eqb addressSignedWith correctAddress
                         then Normal newOrMutatedTx
                         else Throw (ThrownExn SignerMismatchError)
                     end
                 end
             end
         end
     end).
Proof.
  unfold signTransaction, response_signature, sent_fields, rebuilt.
  rewrite bind_gets, bind_emit.
  destruct (SecuxETH_signTransaction device (hdPath s) _) as [[r |] | e];
    steps; try reflexivity.
  destruct (signature r) as [sig |]; steps; try reflexivity.
  destruct (fromTxData _ _) as [newTx | e]; steps; try reflexivity.
  destruct (recovered_signer newTx) as [a | e]; steps; try reflexivity.
  destruct (toChecksumAddress address) as [b | e]; steps; try reflexivity.
  destruct (String.eqb a b); reflexivity.
Qed.

(** C1: when the device answers a signing request, [signTransaction]
    recovers the signer of the rebuilt transaction and compares it,
    checksummed, with the checksummed [address]: it returns a transaction
    only if the two are equal, and when they differ it fails with the
    signer-mismatch error. *)
Theorem signTransaction_checks_signer (address : string) (tx : Tx) (s : Session)
    (response : option SignResponse) :
  SecuxETH_signTransaction device (hdPath s) (sent_fields tx) = Normal response ->
  (forall signedTx,
      snd (signTransaction device address tx s) = Normal signedTx ->
      exists a, recovered_signer signedTx = Normal a
                /\ toChecksumAddress address = Normal a)
  /\ (forall r sig signedTx a b,
      response = Some r ->
      signature r = Some sig ->
      rebuilt tx sig = Normal signedTx ->
      recovered_signer signedTx = Normal a ->
      toChecksumAddress address = Normal b ->
      a <> b ->
      snd (signTransaction device address tx s) = Throw (ThrownExn SignerMismatchError)).
Proof.
  intros Hdev. rewrite signTransaction_steps. cbn [snd]. rewrite Hdev. split.
  - intros signedTx H.
    destruct response as [r |]; [| discriminate].
    destruct (signature r) as [sig |]; [| discriminate].
    destruct (rebuilt tx sig) as [newTx | e]; [| discriminate].
    destruct (recovered_signer newTx) as [a | e] eqn:Ha; [| discriminate].
    destruct (toChecksumAddress address) as [b | e]; [| discriminate].
    destruct (String.eqb_spec a b) as [-> | Hne]; [| discriminate].
    injection H as <-. exists b. auto.
  - intros r sig signedTx a b -> Hsig Htx Ha Hb Hne.
    rewrite Hsig, Htx, Ha, Hb.
    destruct (String.eqb_spec a b); [contradiction | reflexivity].
Qed.

(** The same without a condition on the device: no transaction comes out
    of [signTransaction] with a signer other than [address]. *)
Lemma signTransaction_never_wrong_signer address tx s signedTx :
  snd (signTransaction device address tx s) = Normal signedTx ->
  recovered_signer signedTx = toChecksumAddress address.
Proof.
  rewrite signTransaction_steps. cbn [snd]. intros H.
  destruct (SecuxETH_signTransaction _ _ _) as [[r |] | e]; try discriminate.
  destruct (signature r) as [sig |]; [| discriminate].
  destruct (rebuilt tx sig) as [newTx | e]; [| discriminate].
  destruct (recovered_signer newTx) as [a | e] eqn:Ha; [| discriminate].
  destruct (toChecksumAddress address) as [b | e]; [| discriminate].
  destruct (String.eqb_spec a b) as [-> | Hne]; [| discriminate].
  injection H as <-. exact Ha.
Qed.

(** C2, amended: [signTransaction] resolves no path.  Whatever [address]
    and the path index are, it makes exactly one request to the device,
    for the session's own [hdPath], and it leaves the session as it
    was. *)
Theorem signTransaction_uses_hdPath (address : string) (tx : Tx) (s : Session) :
  snd (fst (signTransaction device address tx s))
  = [EvSignTransaction (hdPath s) (sent_fields tx)]
  /\ fst (fst (signTransaction device address tx s)) = s
  /\ (forall address' known,
        snd (fst (signTransaction device address' tx (set_paths known s)))
        = snd (fst (signTransaction device address tx s))).
Proof.
  rewrite signTransaction_steps. repeat split.
  intros address' known. rewrite signTransaction_steps. reflexivity.
Qed.

End SignTransaction.

Lemma signTransaction_checks_signer_witness :
  (exists a,
      recovered_signer (L := Mock.lib)
        (with_signature Mock.deviceSignature Mock.tx0) = Normal a
      /\ toChecksumAddress (EthLib := Mock.lib) Mock.deviceAddress = Normal a)
  /\ snd (signTransaction (L := Mock.lib) Mock.device_ok Examples.stranger Mock.tx0
                          Examples.fresh)
     = Throw (ThrownExn SignerMismatchError).
Proof.
  pose proof (fun address =>
    signTransaction_checks_signer (L := Mock.lib) Mock.device_ok address Mock.tx0
      Examples.fresh _ eq_refl) as H.
  split.
  - exact (proj1 (H Mock.deviceAddress) _ eq_refl).
  - refine (proj2 (H Examples.stranger) _ _ _ _ _ eq_refl eq_refl eq_refl eq_refl eq_refl _).
    vm_compute. discriminate.
Defined.

(** C2, as written, fails.  In a newly constructed keyring no address can
    be resolved, and [signTransaction] asks the device all the same; in a
    session that knows the index of an address, it asks for [hdPath], not
    for the path of that index. *)
Lemma signTransaction_ignores_resolution :
  ~ signs_for_resolved_path (L := Mock.lib) Mock.device_ok
      Examples.fresh Mock.deviceAddress Mock.tx0
  /\ ~ signs_for_resolved_path (L := Mock.lib) Mock.device_ok
      Examples.indexed Examples.address3 Mock.tx0.
Proof.
  split; unfold signs_for_resolved_path.
  - intros H. vm_compute in H. destruct H as [H _]. discriminate.
  - intros H. vm_compute in H. destruct H as (fields & rest & H). discriminate.
Qed.

(** ** getAccounts *)

Lemma getAccounts_steps (device : Device) (s : Session) :
  getAccounts device s
  = match SecuxETH_getAddress device (hdPath s) with
    | Normal a => (set_accounts [a] s, [EvGetAddress (hdPath s)], Normal [a])
    | Throw e => (s, [EvGetAddress (hdPath s)], Throw e)
    end.
Proof.
  unfold getAccounts. rewrite bind_gets, bind_emit.
  destruct (SecuxETH_getAddress device (hdPath s)) as [a | e]; steps; reflexivity.
Qed.

(** C8, amended: [getAccounts] asks the device for the address at
    [hdPath], replaces the stored accounts by that one address and returns
    it alone; the path index, the page, the page size, the account cursor
    and the key are left as they were.  If the device fails, so does
    [getAccounts], and the session is unchanged. *)
Theorem getAccounts_replaces (device : Device) (s : Session) :
  getAccounts device s
  = match SecuxETH_getAddress device (hdPath s) with
    | Normal a => (set_accounts [a] s, [EvGetAddress (hdPath s)], Normal [a])
    | Throw e => (s, [EvGetAddress (hdPath s)], Throw e)
    end
  /\ paths (fst (fst (getAccounts device s))) = paths s
  /\ page (fst (fst (getAccounts device s))) = page s
  /\ perPage (fst (fst (getAccounts device s))) = perPage s
  /\ unlockedAccount (fst (fst (getAccounts device s))) = unlockedAccount s
  /\ hdk (fst (fst (getAccounts device s))) = hdk s.
Proof.
  rewrite getAccounts_steps. split; [reflexivity |].
  destruct (SecuxETH_getAddress device (hdPath s)); repeat split; reflexivity.
Qed.

(** C8, as written, fails: a keyring restored with two accounts holds one
    other account after [getAccounts]. *)
Lemma getAccounts_overwrites :
  ~ getAccounts_reads_only Mock.device_ok Examples.restored.
Proof.
  unfold getAccounts_reads_only. intros [H _].
  apply (f_equal accounts) in H. vm_compute in H. discriminate.
Qed.

(** ** addAccounts *)

Section AddAccounts.

Context `{L : EthLib}.
Variable device : Device.

Lemma derived_address_same_hdk s s' i :
  hdk s = hdk s' -> derived_address s i = derived_address s' i.
Proof. apply _addressFromIndex_same_hdk. Qed.

(** The loop of [addAccounts] over indices whose addresses are [addrs]. *)
Lemma addAccounts_loop addrs : forall i s,
  (forall (k : nat) a, addrs !! k = Some a ->
                       derived_address s (i + Z.of_nat k) = Normal a) ->
  for_steps (length addrs) i addAccounts_body tt s
  = (match addrs with
     | [] => s
     | _ :: _ => set_page 0 (set_accounts (fold_left push_new addrs (accounts s)) s)
     end, [], Normal tt).
Proof.
  induction addrs as [| a addrs IH]; intros i s Hd.
  - reflexivity.
  - cbn [length for_steps]. unfold addAccounts_body at 1.
    rewrite bind_assoc, bind_addressFromIndex.
    pose proof (Hd O a eq_refl) as H0. rewrite Z.add_0_r in H0. rewrite H0.
    steps. rewrite IH.
    + destruct addrs; reflexivity.
    + intros k b Hk.
      rewrite (derived_address_same_hdk _ s) by reflexivity.
      replace (i + 1 + Z.of_nat k) with (i + Z.of_nat (S k)) by lia.
      apply Hd. exact Hk.
Qed.

(** C5, amended: when the unlock and the derivations succeed,
    [addAccounts n] makes the device call of the unlock only; it appends,
    in order, each address of the indices from the account cursor on that
    is not yet among the accounts; it resolves with the accounts so
    updated; it sets the page to 0 when [n] is positive; and it writes
    neither to the path index nor to the account cursor. *)
Theorem addAccounts_appends (n : Z) (s s1 : Session) (t1 : list Event)
    (status : string) (addrs : list string) :
  unlock device s = (s1, t1, Normal status) ->
  length addrs = Z.to_nat n ->
  (forall (k : nat) a, addrs !! k = Some a ->
       derived_address s1 (unlockedAccount s + Z.of_nat k) = Normal a) ->
  let s' := fst (fst (addAccounts device n s)) in
  addAccounts device n s = (s', t1, Normal (accounts s'))
  /\ accounts s' = fold_left push_new addrs (accounts s)
  /\ paths s' = paths s
  /\ page s' = (if Z.ltb 0 n then 0 else page s)
  /\ unlockedAccount s' = unlockedAccount s
  /\ perPage s' = perPage s
  /\ hdk s' = hdk s1.
Proof.
  intros Hu Hlen Hd.
  pose proof (unlock_preserves device accounts (fun _ _ => eq_refl) s) as Ha.
  pose proof (unlock_preserves device paths (fun _ _ => eq_refl) s) as Hp.
  pose proof (unlock_preserves device page (fun _ _ => eq_refl) s) as Hg.
  pose proof (unlock_preserves device unlockedAccount (fun _ _ => eq_refl) s) as Hc.
  pose proof (unlock_preserves device perPage (fun _ _ => eq_refl) s) as Hpp.
  rewrite Hu in Ha, Hp, Hg, Hc, Hpp. cbn [fst] in Ha, Hp, Hg, Hc, Hpp.
  assert (E : addAccounts device n s
    = (match addrs with
       | [] => s1
       | _ :: _ => set_page 0 (set_accounts (fold_left push_new addrs (accounts s1)) s1)
       end, t1,
       Normal (fold_left push_new addrs (accounts s1)))).
  { unfold addAccounts. erewrite bind_Normal by exact Hu.
    rewrite bind_gets. unfold for_range.
    replace (unlockedAccount s1 + n - unlockedAccount s1) with n by lia.
    rewrite <- Hlen.
    erewrite bind_Normal; cycle 1.
    { apply addAccounts_loop. intros k a Hk. rewrite Hc. apply Hd. exact Hk. }
    cbn [fst snd]. unfold gets. rewrite !app_nil_r.
    destruct addrs; reflexivity. }
  intros s'. subst s'. rewrite E. cbn [fst snd].
  assert (Hn : Z.ltb 0 n = match addrs with [] => false | _ :: _ => true end).
  { destruct addrs; cbn [length] in Hlen.
    - apply Z.ltb_ge. lia.
    - apply Z.ltb_lt. lia. }
  rewrite Hn. destruct addrs as [| a addrs']; cbn [fold_left];
    repeat split; cbn; congruence.
Qed.

End AddAccounts.

Lemma addAccounts_appends_witness :
  addAccounts (L := Mock.lib) Mock.device_ok 2 Examples.locked_with_hdk
  = (set_page 0 (set_accounts
       [Examples.address0; "0x6d2f3102a1b2c3d4e5f60718293a4b5c6d7e8f90"]
       Examples.unlocked),
     [EvGetXPublickey hdPathString],
     Normal [Examples.address0; "0x6d2f3102a1b2c3d4e5f60718293a4b5c6d7e8f90"]).
Proof.
  refine (proj1 (addAccounts_appends (L := Mock.lib) Mock.device_ok 2
                   Examples.locked_with_hdk Examples.unlocked
                   [EvGetXPublickey hdPathString] "just unlocked"
                   [Examples.address0; "0x6d2f3102a1b2c3d4e5f60718293a4b5c6d7e8f90"]
                   _ _ _)).
  - vm_compute. reflexivity.
  - reflexivity.
  - intros [| [| k]] a; cbn; intros [= <-]; vm_compute; reflexivity.
Defined.

(** C5, as written, fails: [addAccounts] leaves the account it adds out of
    the path index; so does [getAccounts], on a newly constructed
    keyring. *)
Lemma addAccounts_registers_nothing :
  ~ addAccounts_indexes (L := Mock.lib) Mock.device_ok Examples.unlocked 1
  /\ ~ accounts_indexed (fst (fst (getAccounts Mock.device_ok Examples.fresh))).
Proof.
  split.
  - intros H.
    assert (H0 : accounts_indexed Examples.unlocked) by (intros a []).
    specialize (H H0 Examples.address0).
    assert (Hin : In Examples.address0
      (accounts (fst (fst (addAccounts (L := Mock.lib) Mock.device_ok 1
                                       Examples.unlocked))))).
    { vm_compute. left. reflexivity. }
    destruct (H Hin) as [i Hi]. vm_compute in Hi. discriminate.
  - intros H. destruct (H Mock.deviceAddress) as [i Hi].
    + vm_compute. left. reflexivity.
    + vm_compute in Hi. discriminate.
Qed.

(** ** Resolving the path of an address *)

(** A check over the indices below a bound, run as a computation. *)
Lemma forall_below (P : Z -> bool) (n : nat) :
  forallb P (map Z.of_nat (seq 0 n)) = true ->
  forall j, 0 <= j < Z.of_nat n -> P j = true.
Proof.
  intros H j Hj. rewrite forallb_forall in H. apply H.
  apply in_map_iff. exists (Z.to_nat j). split; [lia |].
  apply in_seq. lia.
Qed.

Section PathFromAddress.

Context `{L : EthLib}.

Lemma scan_steps_pure n : forall i c s,
  scan_steps n i c s = (s, [], snd (scan_steps n i c s)).
Proof.
  induction n as [| n IH]; intros i c s; [reflexivity |].
  cbn [scan_steps]. rewrite bind_addressFromIndex.
  destruct (derived_address s i) as [a | e]; [| reflexivity].
  destruct (String.eqb c a); [reflexivity | apply IH].
Qed.

(** The scan stops at the first index whose address is the one looked
    for. *)
Lemma scan_steps_finds n : forall i c s (j : nat),
  (j < n)%nat ->
  (forall k : nat, (k < j)%nat -> scan_misses s c (i + Z.of_nat k) = true) ->
  derived_address s (i + Z.of_nat j) = Normal c ->
  snd (scan_steps n i c s) = Normal (Some (i + Z.of_nat j)).
Proof.
  induction n as [| n IH]; intros i c s j Hj Hmiss Hhit; [lia |].
  cbn [scan_steps]. rewrite bind_addressFromIndex.
  destruct j as [| j].
  - rewrite Z.add_0_r in *. rewrite Hhit, String.eqb_refl. reflexivity.
  - pose proof (Hmiss O ltac:(lia)) as H0. rewrite Z.add_0_r in H0.
    unfold scan_misses in H0.
    destruct (derived_address s i) as [a | e]; [| discriminate].
    apply negb_true_iff in H0. rewrite H0.
    replace (i + Z.of_nat (S j)) with (i + 1 + Z.of_nat j) in * by lia.
    apply IH; [lia | | exact Hhit].
    intros k Hk. replace (i + 1 + Z.of_nat k) with (i + Z.of_nat (S k)) by lia.
    apply Hmiss. lia.
Qed.

(** The scan gives up when every index misses. *)
Lemma scan_steps_exhausts n : forall i c s,
  (forall k : nat, (k < n)%nat -> scan_misses s c (i + Z.of_nat k) = true) ->
  snd (scan_steps n i c s) = Normal None.
Proof.
  induction n as [| n IH]; intros i c s Hmiss; [reflexivity |].
  cbn [scan_steps]. rewrite bind_addressFromIndex.
  pose proof (Hmiss O ltac:(lia)) as H0. rewrite Z.add_0_r in H0.
  unfold scan_misses in H0.
  destruct (derived_address s i) as [a | e]; [| discriminate].
  apply negb_true_iff in H0. rewrite H0.
  apply IH. intros k Hk.
  replace (i + 1 + Z.of_nat k) with (i + Z.of_nat (S k)) by lia.
  apply Hmiss. lia.
Qed.

(** [_pathFromAddress] reads the session and writes nothing. *)
Lemma _pathFromAddress_pure address s :
  _pathFromAddress address s = (s, [], snd (_pathFromAddress address s)).
Proof.
  unfold _pathFromAddress.
  destruct (toChecksumAddress address) as [c | e]; autorewrite with step;
    [| reflexivity].
  destruct (paths s !! c) as [i |]; autorewrite with step; [reflexivity |].
  unfold bind. rewrite scan_steps_pure.
  destruct (snd (scan_steps _ _ _ _)) as [[i |] | e]; reflexivity.
Qed.

(** C7, amended: [_pathFromAddress] checksums the address and looks it up
    in the path index; an index found there gives the path.  Otherwise it
    derives the addresses of the indices 0 to [MAX_INDEX - 1] in turn, and
    the first index whose address is the checksummed one gives the path; if
    none is, it fails with "Unknown address".  The session is not written
    to: an index found by the scan is not put into the path index. *)
Theorem pathFromAddress_resolution (s : Session) (address c : string) :
  toChecksumAddress address = Normal c ->
  fst (fst (_pathFromAddress address s)) = s
  /\ snd (fst (_pathFromAddress address s)) = []
  /\ (forall i, paths s !! c = Some i ->
        snd (_pathFromAddress address s)
        = Normal (hdPath s +:+ "/" +:+ num_toString i))
  /\ (forall i, paths s !! c = None ->
        0 <= i < MAX_INDEX ->
        (forall j, 0 <= j < i -> scan_misses s c j = true) ->
        derived_address s i = Normal c ->
        snd (_pathFromAddress address s)
        = Normal (hdPath s +:+ "/" +:+ num_toString i))
  /\ (paths s !! c = None ->
        (forall j, 0 <= j < MAX_INDEX -> scan_misses s c j = true) ->
        snd (_pathFromAddress address s) = Throw (ThrownExn UnknownAddressError)).
Proof.
  intros Hc. rewrite _pathFromAddress_pure. cbn [fst snd].
  split; [reflexivity |]. split; [reflexivity |].
  unfold _pathFromAddress. rewrite Hc. autorewrite with step.
  split; [| split].
  - intros i Hi. rewrite Hi. autorewrite with step. reflexivity.
  - intros i Hnone Hi Hmiss Hhit. rewrite Hnone.
    pose proof (scan_steps_finds (Z.to_nat MAX_INDEX) 0 c s (Z.to_nat i)) as Hscan.
    rewrite Z.add_0_l, Z2Nat.id in Hscan by lia.
    assert (Hr : snd (scan_steps (Z.to_nat MAX_INDEX) 0 c s) = Normal (Some i)).
    { apply Hscan; [lia | | exact Hhit].
      intros k Hk. apply Hmiss. lia. }
    unfold bind at 1. rewrite scan_steps_pure, Hr. autorewrite with step.
    reflexivity.
  - intros Hnone Hmiss. rewrite Hnone.
    assert (Hr : snd (scan_steps (Z.to_nat MAX_INDEX) 0 c s) = Normal None).
    { apply scan_steps_exhausts. intros k Hk. apply Hmiss. lia. }
    unfold bind at 1. rewrite scan_steps_pure, Hr. reflexivity.
Qed.

End PathFromAddress.

Lemma pathFromAddress_resolution_witness :
  snd (_pathFromAddress (L := Mock.lib) Examples.address3_upper Examples.indexed)
  = Normal "m/44'/60'/0'/0/0/3"
  /\ snd (_pathFromAddress (L := Mock.lib) Examples.address3_upper Examples.unlocked)
     = Normal "m/44'/60'/0'/0/0/3"
  /\ paths (fst (fst (_pathFromAddress (L := Mock.lib) Examples.address3_upper
                                       Examples.unlocked))) = ∅
  /\ snd (_pathFromAddress (L := Mock.lib) Examples.stranger Examples.unlocked)
     = Throw (ThrownExn UnknownAddressError).
Proof.
  pose proof (@pathFromAddress_resolution Mock.lib) as H.
  split; [| split; [| split]].
  - destruct (H Examples.indexed Examples.address3_upper Examples.address3 eq_refl)
      as (_ & _ & Hknown & _).
    exact (Hknown 3 eq_refl).
  - destruct (H Examples.unlocked Examples.address3_upper Examples.address3 eq_refl)
      as (_ & _ & _ & Hscan & _).
    refine (Hscan 3 eq_refl _ _ eq_refl).
    + unfold MAX_INDEX. lia.
    + apply (forall_below _ 3). vm_compute. reflexivity.
  - destruct (H Examples.unlocked Examples.address3_upper Examples.address3 eq_refl)
      as (Hsame & _).
    rewrite Hsame. reflexivity.
  - destruct (H Examples.unlocked Examples.stranger Examples.stranger eq_refl)
      as (_ & _ & _ & _ & Hnone).
    apply Hnone; [reflexivity |].
    apply (forall_below _ 1000). vm_compute. reflexivity.
Defined.

(** C7, as written, fails: the scan finds index 3 for an address and the
    path index still has no entry for it. *)
Lemma scan_does_not_cache :
  ~ scan_caches (L := Mock.lib) Examples.unlocked Examples.address3_upper.
Proof.
  intros H.
  specialize (H Examples.address3 3 eq_refl eq_refl ltac:(vm_compute; reflexivity)).
  vm_compute in H. discriminate.
Qed.

(** ** The delay between the two popups *)

Section SignPersonalMessage.

Context `{L : EthLib}.
Variable device : Device.

Lemma bind_pathFromAddress {B} address (k : string -> M B) s :
  bind (_pathFromAddress address) k s
  = match snd (_pathFromAddress address s) with
    | Normal path => k path s
    | Throw e => (s, [], Throw e)
    end.
Proof.
  unfold bind. rewrite _pathFromAddress_pure. cbn [snd].
  destruct (snd (_pathFromAddress address s)) as [path | e]; [| reflexivity].
  destruct (k path s) as [[s2 t2] r2]. reflexivity.
Qed.


(** If the path cannot be computed, no signing call is made and the
    exception escapes the timer: the promise is never settled. *)
Lemma signPersonalMessage_unsettled withAccount message s s1 t1 status e :
  unlock device s = (s1, t1, Normal status) ->
  snd (_pathFromAddress withAccount s1) = Throw e ->
  signPersonalMessage device withAccount message s
  = (s1, t1 ++ [EvSetTimeout (popup_delay status)], Unsettled e).
Proof.
  intros Hu Hp. unfold signPersonalMessage. rewrite Hu, bind_emit.
  unfold signPersonalMessage_callback. rewrite bind_pathFromAddress, Hp.
  reflexivity.
Qed.


End SignPersonalMessage.


(** ** The key of a keyring that only its methods touch *)

Section NeverUnlocked.

Context `{L : EthLib}.
Variable device : Device.

(** With [hdk] at [null], [unlock] is rejected whatever the device
    answers, after one handshake, and the session is as before. *)
Lemma unlock_null_hdk s :
  hdk s = None ->
  exists e, unlock device s = (s, [EvGetXPublickey (hdPath s)], Throw e).
Proof.
  intros Hh. unfold unlock. autorewrite with step.
  unfold isUnlocked. rewrite Hh. autorewrite with step.
  unfold unlock_then, payload_buffer, assign_publicKey, assign_chainCode.
  unfold catch, bind, gets, throw, modify, lift, ret.
  destruct (getXPublickey device (hdPath s)) as [response | e]; simpl;
    [| eauto].
  destruct (success response); simpl; [| eauto].
  destruct (payload response) as [p |]; simpl; [| eauto].
  destruct (payload_publicKey p) as [pk |]; simpl; [| eauto].
  rewrite Hh. simpl. eauto.
Qed.

Lemma after_call_keeps_null_hdk c s :
  hdk s = None /\ paths s = ∅ ->
  hdk (after_call device c s) = None /\ paths (after_call device c s) = ∅.
Proof.
  intros [Hh Hp]. destruct c; cbn [after_call].
  - rewrite deserialize_fields. auto.
  - auto.
  - destruct (unlock_null_hdk s Hh) as [e ->]. auto.
  - auto.
  - unfold addAccounts. destruct (unlock_null_hdk s Hh) as [e He].
    erewrite bind_Throw by exact He. auto.
  - assert (Hpage : forall increment s0,
      hdk s0 = None -> paths s0 = ∅ ->
      hdk (fst (fst (__getPage device increment s0))) = None
      /\ paths (fst (fst (__getPage device increment s0))) = ∅).
    { intros increment s0 Hh0 Hp0. unfold __getPage.
      rewrite bind_modify, bind_gets.
      destruct (_ <=? 0)%Z; [rewrite bind_modify | rewrite bind_ret].
      - destruct (unlock_null_hdk (set_page 1 (set_page (page s0 + increment) s0)) Hh0)
          as [e He].
        erewrite bind_Throw by exact He. auto.
      - destruct (unlock_null_hdk (set_page (page s0 + increment) s0) Hh0) as [e He].
        erewrite bind_Throw by exact He. auto. }
    destruct r; cbn [request_page]; unfold getFirstPage, getNextPage, getPreviousPage;
      try rewrite bind_modify; apply Hpage; assumption.
  - rewrite getAccounts_steps.
    destruct (SecuxETH_getAddress device (hdPath s)); auto.
  - unfold removeAccount. rewrite bind_gets.
    destruct (negb _); auto.
  - rewrite signTransaction_steps. auto.
  - unfold signMessage, signPersonalMessage.
    destruct (unlock_null_hdk s Hh) as [e ->]. auto.
  - unfold signPersonalMessage.
    destruct (unlock_null_hdk s Hh) as [e ->]. auto.
  - auto.
  - auto.
  - auto.
Qed.

(** However its methods are called, a keyring built by the constructor
    keeps [hdk] at [null] and an empty path index: it is never unlocked,
    and [unlock] never resolves. *)
Lemma reachable_never_unlocked s :
  reachable device s ->
  hdk s = None /\ paths s = ∅ /\ isUnlocked s = false
  /\ exists e, snd (unlock device s) = Throw e.
Proof.
  intros Hr.
  assert (H : hdk s = None /\ paths s = ∅).
  { induction Hr as [opts | c s Hr IH].
    - rewrite constructor_fields_of. auto.
    - apply after_call_keeps_null_hdk. exact IH. }
  destruct H as [Hh Hp]. repeat split; try assumption.
  - unfold isUnlocked. rewrite Hh. reflexivity.
  - destruct (unlock_null_hdk s Hh) as [e ->]. eauto.
Qed.

End NeverUnlocked.

(** ** The page through the other methods *)

Section PageKept.

Context `{L : EthLib}.
Variable device : Device.

Lemma signPersonalMessage_session withAccount message s :
  fst (fst (signPersonalMessage device withAccount message s))
  = fst (fst (unlock device s)).
Proof.
  unfold signPersonalMessage.
  destruct (unlock device s) as [[s1 t1] [status | e]]; [| reflexivity].
  rewrite bind_emit. unfold signPersonalMessage_callback.
  rewrite bind_pathFromAddress.
  destruct (snd (_pathFromAddress withAccount s1)) as [path | e]; [| reflexivity].
  rewrite bind_emit. unfold catch, bind, lift, ret, throw.
  destruct (SecuxETH_signMessage device path message) as [[r |] | e];
    [destruct (signature r) | |]; reflexivity.
Qed.

(** Apart from [deserialize] and [addAccounts], which set the page back
    to 0, no method takes a page that is at least 1 below 1. *)
Lemma page_floor_kept c s :
  resets_page c = false ->
  1 <= page s -> 1 <= page (after_call device c s).
Proof.
  intros Hc Hs.
  pose proof (unlock_preserves device page (fun _ _ => eq_refl) s) as Hu.
  destruct c; try discriminate Hc; cbn [after_call].
  - exact Hs.
  - rewrite Hu. exact Hs.
  - exact Hs.
  - apply request_page_floor.
  - rewrite getAccounts_steps.
    destruct (SecuxETH_getAddress device (hdPath s)); exact Hs.
  - unfold removeAccount. rewrite bind_gets. destruct (negb _); exact Hs.
  - rewrite signTransaction_steps. exact Hs.
  - unfold signMessage. rewrite signPersonalMessage_session, Hu. exact Hs.
  - rewrite signPersonalMessage_session, Hu. exact Hs.
  - exact Hs.
  - exact Hs.
  - exact Hs.
Qed.

End PageKept.

(** * Further properties of the methods *)

(** ** removeAccount *)

Lemma includes_In x l : includes x l = true <-> In x l.
Proof.
  unfold includes. rewrite existsb_exists. split.
  - intros (y & Hy & He). apply String.eqb_eq in He. subst. exact Hy.
  - intros H. exists x. split; [exact H | apply String.eqb_refl].
Qed.

Lemma includes_lower address accs :
  includes (toLowerCase address) (map toLowerCase accs) = true
  <-> exists a, In a accs /\ toLowerCase a = toLowerCase address.
Proof.
  rewrite includes_In, in_map_iff. split; intros (a & H1 & H2); eauto.
Qed.

(** Removing an account that the keyring holds in some spelling removes
    every account that differs from it in letter case only, keeps the
    others in their order, and touches nothing else: neither the path
    index, where the removed address stays, nor the device. *)
Theorem removeAccount_removes_spellings (address : string) (s : Session) :
  (exists a, In a (accounts s) /\ toLowerCase a = toLowerCase address) ->
  let s' := fst (fst (removeAccount address s)) in
  snd (removeAccount address s) = Normal tt
  /\ snd (fst (removeAccount address s)) = []
  /\ (forall a, In a (accounts s')
                <-> In a (accounts s) /\ toLowerCase a <> toLowerCase address)
  /\ (exists removed,
        accounts s'
        = List.filter (fun a => negb (removed a)) (accounts s))
  /\ paths s' = paths s /\ hdk s' = hdk s /\ page s' = page s
  /\ perPage s' = perPage s /\ unlockedAccount s' = unlockedAccount s
  /\ hdPath s' = hdPath s.
Proof.
  intros Hin. apply includes_lower in Hin.
  unfold removeAccount. rewrite bind_gets, Hin. cbn.
  split; [reflexivity |]. split; [reflexivity |]. split.
  { intros a. rewrite filter_In, negb_true_iff, String.eqb_neq. reflexivity. }
  split.
  { exists (fun a => String.eqb (toLowerCase a) (toLowerCase address)). reflexivity. }
  repeat split; reflexivity.
Qed.

Lemma removeAccount_removes_spellings_witness :
  snd (removeAccount "0xABCD" MoreExamples.mixed_case) = Normal tt
  /\ (In "0x1234" (accounts (fst (fst (removeAccount "0xABCD" MoreExamples.mixed_case))))
      <-> In "0x1234" (accounts MoreExamples.mixed_case)
          /\ toLowerCase "0x1234" <> toLowerCase "0xABCD")
  /\ (In "0xabcd" (accounts (fst (fst (removeAccount "0xABCD" MoreExamples.mixed_case))))
      <-> In "0xabcd" (accounts MoreExamples.mixed_case)
          /\ toLowerCase "0xabcd" <> toLowerCase "0xABCD").
Proof.
  pose proof (removeAccount_removes_spellings "0xABCD" MoreExamples.mixed_case
                (ex_intro _ "0xAbCd" (conj (or_introl eq_refl) eq_refl))) as H.
  destruct H as (Hok & _ & Hin & _).
  exact (conj Hok (conj (Hin "0x1234") (Hin "0xabcd"))).
Defined.

(** Removing an address that the keyring holds in no spelling throws
    "Address ... not found in this keyring" and changes nothing. *)
Theorem removeAccount_absent (address : string) (s : Session) :
  (forall a, In a (accounts s) -> toLowerCase a <> toLowerCase address) ->
  removeAccount address s
  = (s, [], Throw (ThrownExn
       (Error ("Address " +:+ address +:+ " not found in this keyring")))).
Proof.
  intros Hno.
  assert (H : includes (toLowerCase address) (map toLowerCase (accounts s)) = false).
  { apply not_true_is_false. intros H. apply includes_lower in H.
    destruct H as (a & Ha & He). exact (Hno a Ha He). }
  unfold removeAccount. rewrite bind_gets, H. reflexivity.
Qed.

Lemma removeAccount_absent_witness :
  removeAccount "0x9999" MoreExamples.mixed_case
  = (MoreExamples.mixed_case, [],
     Throw (ThrownExn (Error "Address 0x9999 not found in this keyring"))).
Proof.
  apply (removeAccount_absent "0x9999" MoreExamples.mixed_case).
  intros a [<- | [<- | [<- | []]]]; vm_compute; discriminate.
Defined.

(** ** Properties that the methods keep *)

Section Keeping.

Variable P : Session -> Prop.

Lemma keeps_ret {A} (a : A) : keeps P (ret a).
Proof. intros s H. exact H. Qed.

Lemma keeps_gets {A} (g : Session -> A) : keeps P (gets g).
Proof. intros s H. exact H. Qed.

Lemma keeps_lift {A} (c : Completion A) : keeps P (lift c).
Proof. intros s H. exact H. Qed.

Lemma keeps_throw {A} (e : Exn) : keeps P (@throw A e).
Proof. intros s H. exact H. Qed.

Lemma keeps_emit (ev : Event) : keeps P (emit ev).
Proof. intros s H. exact H. Qed.

Lemma keeps_modify (g : Session -> Session) :
  (forall s, P s -> P (g s)) -> keeps P (modify g).
Proof. intros Hg s H. apply Hg. exact H. Qed.

Lemma keeps_bind {A B} (m : M A) (k : A -> M B) :
  keeps P m -> (forall a, keeps P (k a)) -> keeps P (bind m k).
Proof.
  intros Hm Hk s H. unfold bind.
  specialize (Hm s H). destruct (m s) as [[s1 t1] [a | e]]; simpl in *.
  - specialize (Hk a s1 Hm). destruct (k a s1) as [[s2 t2] r2]. exact Hk.
  - exact Hm.
Qed.

Lemma keeps_for_steps {A} (body : Z -> A -> M A) :
  (forall i acc, keeps P (body i acc)) ->
  forall n i acc, keeps P (for_steps n i body acc).
Proof.
  intros Hbody n. induction n as [| n IH]; intros i acc; simpl.
  - apply keeps_ret.
  - apply keeps_bind; [apply Hbody | intros acc'; apply IH].
Qed.

(** A property of the accounts alone is kept by what preserves them. *)
Lemma keeps_of_preserves {A X} (f : Session -> X) (Q : X -> Prop) (m : M A) :
  (forall s, P s <-> Q (f s)) -> preserves f m -> keeps P m.
Proof. intros HP Hm s H. apply HP. rewrite Hm. apply HP. exact H. Qed.

End Keeping.

Section AccountsKept.

Context `{L : EthLib}.
Variable device : Device.

Lemma push_new_NoDup accs a : NoDup accs -> NoDup (push_new accs a).
Proof.
  intros H. unfold push_new. destruct (includes a accs) eqn:Hi; [exact H |].
  apply NoDup_app. split; [exact H |]. split.
  - intros x Hx Hx'. apply list_elem_of_singleton in Hx'. subst x.
    apply list_elem_of_In, includes_In in Hx. congruence.
  - apply NoDup_singleton.
Qed.

Lemma push_new_extends accs a : exists added, push_new accs a = accs ++ added.
Proof.
  unfold push_new. destruct (includes a accs).
  - exists []. rewrite app_nil_r. reflexivity.
  - exists [a]. reflexivity.
Qed.

(** A property of the accounts that [push_new] keeps is kept by
    [addAccounts], however it ends. *)
Lemma addAccounts_keeps (Q : list string -> Prop) n :
  (forall accs a, Q accs -> Q (push_new accs a)) ->
  keeps (fun s => Q (accounts s)) (addAccounts device n).
Proof.
  intros HQ. unfold addAccounts.
  apply keeps_bind.
  { apply (keeps_of_preserves _ accounts Q); [reflexivity |].
    apply unlock_preserves. reflexivity. }
  intros _. apply keeps_bind; [apply keeps_gets | intros from].
  apply keeps_bind; [| intros _; apply keeps_gets].
  apply keeps_for_steps. intros i acc. unfold addAccounts_body.
  apply keeps_bind.
  { apply (keeps_of_preserves _ accounts Q); [reflexivity |].
    apply _addressFromIndex_preserves. }
  intros a. apply keeps_bind; [| intros _; apply keeps_modify; auto].
  apply keeps_modify. intros s. apply HQ.
Qed.

Lemma __getPage_accounts increment s :
  accounts (fst (fst (__getPage device increment s))) = accounts s.
Proof.
  revert s. change (preserves accounts (__getPage device increment)).
  unfold __getPage.
  apply preserves_bind; [apply preserves_modify; reflexivity | intros _].
  apply preserves_bind; [apply preserves_gets | intros p].
  apply preserves_bind.
  { destruct (p <=? 0)%Z; [apply preserves_modify; reflexivity | apply preserves_ret]. }
  intros _.
  apply preserves_bind; [apply unlock_preserves; reflexivity | intros _].
  apply preserves_bind; [apply preserves_gets | intros p'].
  apply preserves_bind; [apply preserves_gets | intros pp].
  apply preserves_for_steps. intros i acc.
  apply getPage_body_preserves. reflexivity.
Qed.

Lemma request_page_accounts r s :
  accounts (fst (fst (request_page device r s))) = accounts s.
Proof.
  destruct r; cbn [request_page]; unfold getFirstPage, getNextPage, getPreviousPage;
    try rewrite bind_modify; rewrite __getPage_accounts; reflexivity.
Qed.

(** No method but [deserialize], which takes the accounts as they are
    given, puts an address among the accounts twice: from accounts without
    duplicates every other call, however it ends, leaves accounts without
    duplicates. *)
Theorem accounts_stay_distinct (c : Call) (s : Session) :
  restores_accounts c = false ->
  NoDup (accounts s) -> NoDup (accounts (after_call device c s)).
Proof.
  intros Hc Hs.
  pose proof (unlock_preserves device accounts (fun _ _ => eq_refl) s) as Hu.
  destruct c; try discriminate Hc; cbn [after_call].
  - exact Hs.
  - rewrite Hu. exact Hs.
  - exact Hs.
  - apply (addAccounts_keeps (@NoDup string) n); [| exact Hs].
    intros accs a. apply push_new_NoDup.
  - rewrite request_page_accounts. exact Hs.
  - rewrite getAccounts_steps.
    destruct (SecuxETH_getAddress device (hdPath s)); [apply NoDup_singleton | exact Hs].
  - unfold removeAccount. rewrite bind_gets.
    destruct (negb _); [exact Hs |]. cbn.
    apply NoDup_ListNoDup, List.NoDup_filter, NoDup_ListNoDup. exact Hs.
  - rewrite signTransaction_steps. exact Hs.
  - unfold signMessage. rewrite signPersonalMessage_session, Hu. exact Hs.
  - rewrite signPersonalMessage_session, Hu. exact Hs.
  - exact Hs.
  - exact Hs.
  - apply NoDup_nil. exact I.
Qed.

(** [addAccounts] only ever appends: whatever [n] is and however the call
    ends, the accounts it leaves start with the accounts it found. *)
Theorem addAccounts_only_appends (n : Z) (s : Session) :
  exists added,
    accounts (fst (fst (addAccounts device n s))) = accounts s ++ added.
Proof.
  apply (addAccounts_keeps (fun accs => exists added, accs = accounts s ++ added) n).
  - intros accs a [added ->]. destruct (push_new_extends (accounts s ++ added) a)
      as [more ->].
    exists (added ++ more). rewrite app_assoc. reflexivity.
  - exists []. rewrite app_nil_r. reflexivity.
Qed.

End AccountsKept.

Lemma accounts_stay_distinct_witness :
  NoDup (accounts (after_call (L := Mock.lib) Mock.device_ok (CallAddAccounts 3)
                              (set_accounts [Examples.address0] Examples.unlocked))).
Proof.
  apply (accounts_stay_distinct (L := Mock.lib) Mock.device_ok (CallAddAccounts 3)
           (set_accounts [Examples.address0] Examples.unlocked) eq_refl).
  apply NoDup_singleton.
Defined.

(** ** addAccounts, again and in part *)

Section AddAccountsMore.

Context `{L : EthLib}.
Variable device : Device.

Lemma addAccounts_resolved n s s1 t1 status addrs :
  unlock device s = (s1, t1, Normal status) ->
  length addrs = Z.to_nat n ->
  (forall (k : nat) a, addrs !! k = Some a ->
       derived_address s1 (unlockedAccount s1 + Z.of_nat k) = Normal a) ->
  addAccounts device n s
  = (match addrs with
     | [] => s1
     | _ :: _ => set_page 0 (set_accounts (fold_left push_new addrs (accounts s1)) s1)
     end, t1, Normal (fold_left push_new addrs (accounts s1))).
Proof.
  intros Hu Hlen Hd. unfold addAccounts. erewrite bind_Normal by exact Hu.
  rewrite bind_gets. unfold for_range.
  replace (unlockedAccount s1 + n - unlockedAccount s1) with n by lia.
  rewrite <- Hlen.
  erewrite bind_Normal by (apply addAccounts_loop; exact Hd).
  cbn [fst snd]. unfold gets. rewrite !app_nil_r.
  destruct addrs; reflexivity.
Qed.

(** The loop of [addAccounts] when the derivation fails after [addrs]. *)
Lemma addAccounts_loop_fails addrs : forall n i s e,
  (length addrs < n)%nat ->
  (forall (k : nat) a, addrs !! k = Some a ->
                       derived_address s (i + Z.of_nat k) = Normal a) ->
  derived_address s (i + Z.of_nat (length addrs)) = Throw e ->
  for_steps n i addAccounts_body tt s
  = (match addrs with
     | [] => s
     | _ :: _ => set_page 0 (set_accounts (fold_left push_new addrs (accounts s)) s)
     end, [], Throw e).
Proof.
  induction addrs as [| a addrs IH]; intros n i s e Hn Hd He;
    (destruct n as [| n]; [cbn [length] in Hn; lia |]).
  - cbn [for_steps]. unfold addAccounts_body at 1.
    rewrite bind_assoc, bind_addressFromIndex.
    cbn [length] in He. rewrite Z.add_0_r in He. rewrite He. reflexivity.
  - cbn [for_steps]. unfold addAccounts_body at 1.
    rewrite bind_assoc, bind_addressFromIndex.
    pose proof (Hd O a eq_refl) as H0. rewrite Z.add_0_r in H0. rewrite H0.
    steps. rewrite (IH n (i + 1) _ e).
    + destruct addrs; reflexivity.
    + cbn [length] in Hn. lia.
    + intros k b Hk.
      rewrite (derived_address_same_hdk _ s) by reflexivity.
      replace (i + 1 + Z.of_nat k) with (i + Z.of_nat (S k)) by lia.
      apply Hd. exact Hk.
    + rewrite (derived_address_same_hdk _ s) by reflexivity.
      replace (i + 1 + Z.of_nat (length addrs))
        with (i + Z.of_nat (length (a :: addrs))) by (cbn [length]; lia).
      exact He.
Qed.

(** When a derivation fails in the middle of [addAccounts], the call is
    rejected with that failure and the accounts added for the indices
    before it stay added. *)
Theorem addAccounts_fails_midway (n : Z) (s s1 : Session) (t1 : list Event)
    (status : string) (addrs : list string) (e : Thrown) :
  unlock device s = (s1, t1, Normal status) ->
  (length addrs < Z.to_nat n)%nat ->
  (forall (k : nat) a, addrs !! k = Some a ->
       derived_address s1 (unlockedAccount s1 + Z.of_nat k) = Normal a) ->
  derived_address s1 (unlockedAccount s1 + Z.of_nat (length addrs)) = Throw e ->
  snd (addAccounts device n s) = Throw e
  /\ snd (fst (addAccounts device n s)) = t1
  /\ accounts (fst (fst (addAccounts device n s)))
     = fold_left push_new addrs (accounts s1)
  /\ paths (fst (fst (addAccounts device n s))) = paths s1.
Proof.
  intros Hu Hlen Hd He. unfold addAccounts. erewrite bind_Normal by exact Hu.
  rewrite bind_gets. unfold for_range.
  replace (unlockedAccount s1 + n - unlockedAccount s1) with n by lia.
  erewrite bind_Throw by (apply (addAccounts_loop_fails addrs); eassumption).
  cbn [fst snd]. rewrite app_nil_r.
  destruct addrs; repeat split; reflexivity.
Qed.

Lemma fold_push_new_includes addrs : forall accs a,
  includes a accs = true -> includes a (fold_left push_new addrs accs) = true.
Proof.
  induction addrs as [| b addrs IH]; intros accs a Ha; [exact Ha |].
  cbn [fold_left]. apply IH. unfold push_new.
  destruct (includes b accs); [exact Ha |].
  apply includes_In, in_or_app. left. apply includes_In. exact Ha.
Qed.

Lemma fold_push_new_known addrs : forall accs,
  (forall a, In a addrs -> includes a accs = true) ->
  fold_left push_new addrs accs = accs.
Proof.
  induction addrs as [| b addrs IH]; intros accs H; [reflexivity |].
  cbn [fold_left]. unfold push_new at 2. rewrite (H b) by (left; reflexivity).
  apply IH. intros a Ha. apply H. right. exact Ha.
Qed.

Lemma fold_push_new_all addrs : forall accs a,
  In a addrs -> includes a (fold_left push_new addrs accs) = true.
Proof.
  induction addrs as [| b addrs IH]; intros accs a Ha; [destruct Ha |].
  cbn [fold_left]. destruct Ha as [<- | Ha]; [| apply IH; exact Ha].
  apply fold_push_new_includes. unfold push_new.
  destruct (includes b accs) eqn:Hb; [exact Hb |].
  apply includes_In, in_or_app. right. left. reflexivity.
Qed.

(** [addAccounts] does not move the account cursor, so a second call
    adds nothing: after a call that succeeded, the same call again makes
    no device call and resolves with the same accounts. *)
Theorem addAccounts_again_adds_nothing (n : Z) (s s1 : Session) (t1 : list Event)
    (status : string) (addrs : list string) :
  unlock device s = (s1, t1, Normal status) ->
  length addrs = Z.to_nat n ->
  (forall (k : nat) a, addrs !! k = Some a ->
       derived_address s1 (unlockedAccount s1 + Z.of_nat k) = Normal a) ->
  let s' := fst (fst (addAccounts device n s)) in
  snd (addAccounts device n s') = snd (addAccounts device n s)
  /\ snd (fst (addAccounts device n s')) = []
  /\ accounts (fst (fst (addAccounts device n s'))) = accounts s'
  /\ unlockedAccount s' = unlockedAccount s1.
Proof.
  intros Hu Hlen Hd.
  rewrite (addAccounts_resolved n s s1 t1 status addrs Hu Hlen Hd). cbn [fst snd].
  set (s' := match addrs with
             | [] => s1
             | _ :: _ => set_page 0 (set_accounts (fold_left push_new addrs (accounts s1)) s1)
             end).
  assert (Hacc : accounts s' = fold_left push_new addrs (accounts s1))
    by (subst s'; destruct addrs; reflexivity).
  assert (Hhdk : hdk s' = hdk s1) by (subst s'; destruct addrs; reflexivity).
  assert (Hcur : unlockedAccount s' = unlockedAccount s1)
    by (subst s'; destruct addrs; reflexivity).
  assert (Hun : isUnlocked s' = true).
  { destruct (unlock_resolves device s s1 t1 status Hu)
      as [(_ & H & -> & _) | (_ & _ & _ & H)];
      unfold isUnlocked in *; rewrite Hhdk; exact H. }
  assert (Hd' : forall (k : nat) a, addrs !! k = Some a ->
            derived_address s' (unlockedAccount s' + Z.of_nat k) = Normal a).
  { intros k a Hk. rewrite Hcur, (derived_address_same_hdk s' s1) by exact Hhdk.
    apply Hd. exact Hk. }
  rewrite (addAccounts_resolved n s' s' [] "already unlocked" addrs
             (unlock_already device s' Hun) Hlen Hd').
  cbn [fst snd]. rewrite Hacc.
  assert (Hidem : fold_left push_new addrs (fold_left push_new addrs (accounts s1))
                  = fold_left push_new addrs (accounts s1)).
  { apply fold_push_new_known. intros a Ha. apply fold_push_new_all. exact Ha. }
  rewrite Hidem. repeat split; try reflexivity; try exact Hcur.
  destruct addrs as [| a0 addrs0]; [symmetry; exact Hacc |].
  cbn [accounts set_page set_accounts]. reflexivity.
Qed.

End AddAccountsMore.

Lemma addAccounts_fails_midway_witness :
  snd (addAccounts (L := MoreExamples.failing_lib) Mock.device_ok 3 Examples.unlocked)
  = Throw (ThrownExn (Error "Could not derive"))
  /\ accounts (fst (fst (addAccounts (L := MoreExamples.failing_lib) Mock.device_ok 3
                                     Examples.unlocked)))
     = [Examples.address0; MoreExamples.address1].
Proof.
  destruct (addAccounts_fails_midway (L := MoreExamples.failing_lib) Mock.device_ok 3
              Examples.unlocked Examples.unlocked [] "already unlocked"
              [Examples.address0; MoreExamples.address1]
              (ThrownExn (Error "Could not derive")))
    as (Hres & _ & Hacc & _).
  - reflexivity.
  - cbn. lia.
  - intros [| [| k]] a; cbn; intros [= <-]; vm_compute; reflexivity.
  - vm_compute. reflexivity.
  - exact (conj Hres Hacc).
Defined.

Lemma addAccounts_again_adds_nothing_witness :
  let s' := fst (fst (addAccounts (L := Mock.lib) Mock.device_ok 2
                                  Examples.locked_with_hdk)) in
  snd (fst (addAccounts (L := Mock.lib) Mock.device_ok 2 s')) = []
  /\ accounts (fst (fst (addAccounts (L := Mock.lib) Mock.device_ok 2 s')))
     = accounts s'.
Proof.
  destruct (addAccounts_again_adds_nothing (L := Mock.lib) Mock.device_ok 2
              Examples.locked_with_hdk Examples.unlocked
              [EvGetXPublickey hdPathString] "just unlocked"
              [Examples.address0; MoreExamples.address1])
    as (_ & Htrace & Hacc & _).
  - vm_compute. reflexivity.
  - reflexivity.
  - intros [| [| k]] a; cbn; intros [= <-]; vm_compute; reflexivity.
  - exact (conj Htrace Hacc).
Defined.

(** ** A page of accounts *)

Lemma register_keys_other keys : forall i m key,
  ~ In key keys -> register_keys i keys m !! key = m !! key.
Proof.
  induction keys as [| k keys IH]; intros i m key Hn; [reflexivity |].
  cbn [register_keys]. rewrite IH by (intros H; apply Hn; right; exact H).
  apply lookup_insert_ne. intros ->. apply Hn. left. reflexivity.
Qed.

Lemma register_keys_distinct keys : forall i m (n : nat) key,
  List.NoDup keys -> keys !! n = Some key ->
  register_keys i keys m !! key = Some (i + Z.of_nat n).
Proof.
  induction keys as [| k keys IH]; intros i m n key Hnd Hn; [discriminate |].
  cbn [register_keys]. inversion Hnd as [| ? ? Hk Hnd']; subst.
  destruct n as [| n].
  - injection Hn as <-. rewrite register_keys_other by exact Hk.
    rewrite lookup_insert_eq. f_equal. lia.
  - rewrite (IH (i + 1) _ n key Hnd' Hn). f_equal. lia.
Qed.

Lemma register_keys_some keys : forall i m key,
  In key keys -> is_Some (register_keys i keys m !! key).
Proof.
  induction keys as [| k keys IH]; intros i m key Hin; [destruct Hin |].
  cbn [register_keys].
  destruct (in_dec string_dec key keys) as [Hk | Hk].
  - apply IH. exact Hk.
  - destruct Hin as [-> | Hin]; [| contradiction].
    rewrite register_keys_other by exact Hk.
    rewrite lookup_insert_eq. eauto.
Qed.

Section Pages.

Context `{L : EthLib}.
Variable device : Device.

(** The loop of [__getPage] over indices whose addresses and keys are
    [found]. *)
Lemma getPage_loop found : forall i s acc,
  (forall (k : nat) a key, found !! k = Some (a, key) ->
      derived_address s (i + Z.of_nat k) = Normal a
      /\ toChecksumAddress a = Normal key) ->
  for_steps (length found) i getPage_body acc s
  = (set_paths (register_keys i (map snd found) (paths s)) s, [],
     Normal (acc ++ entries_from i (map fst found))).
Proof.
  induction found as [| [a key] found IH]; intros i s acc Hd.
  - cbn. rewrite app_nil_r. destruct s; reflexivity.
  - cbn [length for_steps]. unfold getPage_body at 1.
    rewrite bind_assoc, bind_addressFromIndex.
    destruct (Hd O a key eq_refl) as [H0 Hkey]. rewrite Z.add_0_r in H0.
    rewrite H0. autorewrite with step. rewrite Hkey. autorewrite with step.
    rewrite IH.
    + cbn [map fst snd entries_from register_keys paths set_paths].
      rewrite <- app_assoc. reflexivity.
    + intros k b key' Hk.
      rewrite (derived_address_same_hdk _ s) by reflexivity.
      replace (i + 1 + Z.of_nat k) with (i + Z.of_nat (S k)) by lia.
      apply Hd. exact Hk.
Qed.

(** The session in which [__getPage] unlocks: the cursor has moved. *)
Lemma __getPage_moves increment s :
  __getPage device increment s
  = (do _ <- unlock device;
     do p <- gets page;
     do pp <- gets perPage;
     for_range ((p - 1) * pp) ((p - 1) * pp + pp) getPage_body [])
      (set_page (Z.max (page s + increment) 1) s).
Proof.
  unfold __getPage. rewrite bind_modify, bind_gets. cbn [page set_page].
  destruct (Z.leb_spec (page s + increment) 0) as [Hle | Hgt].
  - rewrite bind_modify. replace (Z.max (page s + increment) 1) with 1 by lia.
    reflexivity.
  - rewrite bind_ret. replace (Z.max (page s + increment) 1) with (page s + increment)
      by lia.
    reflexivity.
Qed.

(** A page that is shown: when the unlock and the derivations succeed,
    [__getPage] moves the cursor to page [p], the larger of the page plus
    the increment and 1, and resolves with one entry, without balance, for
    each index from [(p - 1) * perPage] on, [perPage] of them; the only
    device call is that of the unlock; and each address, checksummed, then
    has an entry in the path index: the index of its entry on the page
    when the checksummed addresses of the page are distinct.  The other
    keys of the path index are as before. *)
Theorem getPage_shows_and_registers (increment : Z) (s s1 : Session)
    (t1 : list Event) (status : string) (found : list (string * string)) :
  let p := Z.max (page s + increment) 1 in
  let from := (p - 1) * perPage s in
  unlock device (set_page p s) = (s1, t1, Normal status) ->
  length found = Z.to_nat (perPage s) ->
  (forall (k : nat) a key, found !! k = Some (a, key) ->
      derived_address s1 (from + Z.of_nat k) = Normal a
      /\ toChecksumAddress a = Normal key) ->
  let s' := fst (fst (__getPage device increment s)) in
  snd (__getPage device increment s) = Normal (entries_from from (map fst found))
  /\ snd (fst (__getPage device increment s)) = t1
  /\ page s' = p
  /\ accounts s' = accounts s
  /\ (forall key, In key (map snd found) -> is_Some (paths s' !! key))
  /\ (List.NoDup (map snd found) ->
      forall (k : nat) a key, found !! k = Some (a, key) ->
        paths s' !! key = Some (from + Z.of_nat k))
  /\ (forall key, ~ In key (map snd found) -> paths s' !! key = paths s !! key).
Proof.
  intros p from Hu Hlen Hd.
  pose proof (unlock_preserves device page (fun _ _ => eq_refl) (set_page p s)) as Hpg.
  pose proof (unlock_preserves device perPage (fun _ _ => eq_refl) (set_page p s)) as Hpp.
  pose proof (unlock_preserves device paths (fun _ _ => eq_refl) (set_page p s)) as Hpa.
  pose proof (unlock_preserves device accounts (fun _ _ => eq_refl) (set_page p s)) as Hac.
  rewrite Hu in Hpg, Hpp, Hpa, Hac. cbn [fst page perPage paths accounts set_page]
    in Hpg, Hpp, Hpa, Hac.
  assert (E : __getPage device increment s
    = (set_paths (register_keys from (map snd found) (paths s1)) s1, t1,
       Normal (entries_from from (map fst found)))).
  { rewrite __getPage_moves. fold p. erewrite bind_Normal by exact Hu.
    rewrite !bind_gets. unfold for_range. rewrite Hpg, Hpp.
    replace ((p - 1) * perPage s + perPage s - (p - 1) * perPage s)
      with (perPage s) by lia.
    rewrite <- Hlen. fold from. rewrite (getPage_loop found from s1 []) by exact Hd.
    cbn [fst snd]. rewrite app_nil_r. reflexivity. }
  intros s'. subst s'. rewrite E. cbn [fst snd page accounts paths set_paths].
  rewrite Hpa. repeat split; try assumption.
  - intros key Hin. apply register_keys_some. exact Hin.
  - intros Hnd k a key Hk. apply register_keys_distinct; [exact Hnd |].
    rewrite list_lookup_fmap, Hk. reflexivity.
  - intros key Hn. apply register_keys_other. exact Hn.
Qed.

(** An address that a page has shown is resolved from the path index:
    after the page of the previous theorem, whose checksummed addresses are
    distinct, [_pathFromAddress] of the address of entry [k] is [hdPath],
    a slash and the index of that entry. *)
Theorem shown_address_resolves (increment : Z) (s s1 : Session)
    (t1 : list Event) (status : string) (found : list (string * string))
    (k : nat) (a key : string) :
  let p := Z.max (page s + increment) 1 in
  let from := (p - 1) * perPage s in
  unlock device (set_page p s) = (s1, t1, Normal status) ->
  length found = Z.to_nat (perPage s) ->
  (forall (k : nat) a key, found !! k = Some (a, key) ->
      derived_address s1 (from + Z.of_nat k) = Normal a
      /\ toChecksumAddress a = Normal key) ->
  List.NoDup (map snd found) ->
  found !! k = Some (a, key) ->
  _pathFromAddress a (fst (fst (__getPage device increment s)))
  = (fst (fst (__getPage device increment s)), [],
     Normal (hdPath s +:+ "/" +:+ num_toString (from + Z.of_nat k))).
Proof.
  intros p from Hu Hlen Hd Hnd Hk.
  pose proof (unlock_preserves device hdPath (fun _ _ => eq_refl) (set_page p s)) as Hh.
  rewrite Hu in Hh. cbn [fst hdPath set_page] in Hh.
  assert (E : fst (fst (__getPage device increment s))
    = set_paths (register_keys from (map snd found) (paths s1)) s1).
  { rewrite __getPage_moves. fold p. erewrite bind_Normal by exact Hu.
    pose proof (unlock_preserves device page (fun _ _ => eq_refl) (set_page p s)) as Hpg.
    pose proof (unlock_preserves device perPage (fun _ _ => eq_refl) (set_page p s))
      as Hpp.
    rewrite Hu in Hpg, Hpp. cbn [fst page perPage set_page] in Hpg, Hpp.
    rewrite !bind_gets. unfold for_range. rewrite Hpg, Hpp.
    replace ((p - 1) * perPage s + perPage s - (p - 1) * perPage s)
      with (perPage s) by lia.
    rewrite <- Hlen. fold from. rewrite (getPage_loop found from s1 []) by exact Hd.
    reflexivity. }
  rewrite E. unfold _pathFromAddress.
  destruct (Hd k a key Hk) as [_ Hkey]. rewrite Hkey. autorewrite with step.
  cbn [paths set_paths].
  rewrite (register_keys_distinct _ from _ k key Hnd)
    by (rewrite list_lookup_fmap, Hk; reflexivity).
  autorewrite with step. cbn [hdPath set_paths]. rewrite Hh. reflexivity.
Qed.

End Pages.

Lemma getPage_shows_and_registers_witness :
  snd (__getPage (L := Mock.lib) Mock.device_ok 1 Examples.unlocked)
  = Normal [mkAccountEntry Examples.address0 None 0;
            mkAccountEntry MoreExamples.address1 None 1;
            mkAccountEntry MoreExamples.address2 None 2;
            mkAccountEntry Examples.address3 None 3;
            mkAccountEntry MoreExamples.address4 None 4]
  /\ paths (fst (fst (__getPage (L := Mock.lib) Mock.device_ok 1 Examples.unlocked)))
     !! MoreExamples.address2 = Some 2.
Proof.
  pose (found := [(Examples.address0, Examples.address0);
                  (MoreExamples.address1, MoreExamples.address1);
                  (MoreExamples.address2, MoreExamples.address2);
                  (Examples.address3, Examples.address3);
                  (MoreExamples.address4, MoreExamples.address4)]).
  destruct (getPage_shows_and_registers (L := Mock.lib) Mock.device_ok 1
              Examples.unlocked (set_page 1 Examples.unlocked) []
              "already unlocked" found)
    as (Hres & _ & _ & _ & _ & Hidx & _).
  - reflexivity.
  - reflexivity.
  - intros [| [| [| [| [| k]]]]] a key; cbn; intros [= <- <-];
      split; vm_compute; reflexivity.
  - split; [exact Hres |].
    refine (Hidx _ 2%nat MoreExamples.address2 MoreExamples.address2 eq_refl).
    repeat constructor; cbn; intros H;
      repeat (destruct H as [H | H]; [discriminate H |]); exact H.
Defined.

Lemma shown_address_resolves_witness :
  snd (_pathFromAddress (L := Mock.lib) Examples.address3
         (fst (fst (__getPage (L := Mock.lib) Mock.device_ok 1 Examples.unlocked))))
  = Normal "m/44'/60'/0'/0/0/3".
Proof.
  pose (found := [(Examples.address0, Examples.address0);
                  (MoreExamples.address1, MoreExamples.address1);
                  (MoreExamples.address2, MoreExamples.address2);
                  (Examples.address3, Examples.address3);
                  (MoreExamples.address4, MoreExamples.address4)]).
  rewrite (shown_address_resolves (L := Mock.lib) Mock.device_ok 1
             Examples.unlocked (set_page 1 Examples.unlocked) []
             "already unlocked" found 3%nat Examples.address3 Examples.address3).
  - reflexivity.
  - reflexivity.
  - reflexivity.
  - intros [| [| [| [| [| k]]]]] a key; cbn; intros [= <- <-];
      split; vm_compute; reflexivity.
  - repeat constructor; cbn; intros H;
      repeat (destruct H as [H | H]; [discriminate H |]); exact H.
  - reflexivity.
Defined.

(** ** A derivation that fails during the scan *)

Section ScanFailure.

Context `{L : EthLib}.

Lemma scan_steps_fails n : forall i c s (j : nat) e,
  (j < n)%nat ->
  (forall k : nat, (k < j)%nat -> scan_misses s c (i + Z.of_nat k) = true) ->
  derived_address s (i + Z.of_nat j) = Throw e ->
  snd (scan_steps n i c s) = Throw e.
Proof.
  induction n as [| n IH]; intros i c s j e Hj Hmiss Hfail; [lia |].
  cbn [scan_steps]. rewrite bind_addressFromIndex.
  destruct j as [| j].
  - rewrite Z.add_0_r in Hfail. rewrite Hfail. reflexivity.
  - pose proof (Hmiss O ltac:(lia)) as H0. rewrite Z.add_0_r in H0.
    unfold scan_misses in H0.
    destruct (derived_address s i) as [a | e']; [| discriminate].
    apply negb_true_iff in H0. rewrite H0.
    replace (i + Z.of_nat (S j)) with (i + 1 + Z.of_nat j) in * by lia.
    apply (IH _ _ _ j); [lia | | exact Hfail].
    intros k Hk. replace (i + 1 + Z.of_nat k) with (i + Z.of_nat (S k)) by lia.
    apply Hmiss. lia.
Qed.

(** A failure to derive an address during the scan of [_pathFromAddress]
    ends the scan: the failure of the first index that cannot be derived,
    when no earlier index matched, is what [_pathFromAddress] throws,
    not "Unknown address", and later indices are not tried. *)
Theorem scan_stops_at_failure (s : Session) (address c : string) (j : Z)
    (e : Thrown) :
  toChecksumAddress address = Normal c ->
  paths s !! c = None ->
  0 <= j < MAX_INDEX ->
  (forall i, 0 <= i < j -> scan_misses s c i = true) ->
  derived_address s j = Throw e ->
  _pathFromAddress address s = (s, [], Throw e).
Proof.
  intros Hc Hnone Hj Hmiss Hfail.
  rewrite _pathFromAddress_pure. f_equal.
  unfold _pathFromAddress. rewrite Hc. autorewrite with step. rewrite Hnone.
  assert (Hr : snd (scan_steps (Z.to_nat MAX_INDEX) 0 c s) = Throw e).
  { apply (scan_steps_fails _ 0 c s (Z.to_nat j)).
    - lia.
    - intros k Hk. apply Hmiss. lia.
    - rewrite Z.add_0_l, Z2Nat.id by lia. exact Hfail. }
  unfold bind at 1. rewrite scan_steps_pure, Hr. reflexivity.
Qed.

End ScanFailure.

Lemma scan_stops_at_failure_witness :
  _pathFromAddress (L := MoreExamples.failing_lib) Examples.address3 Examples.unlocked
  = (Examples.unlocked, [], Throw (ThrownExn (Error "Could not derive")))
  /\ _pathFromAddress (L := Mock.lib) Examples.address3 Examples.fresh
     = (Examples.fresh, [],
        Throw (ThrownExn (TypeError (msg_read_null "derive")))).
Proof.
  split.
  - apply (scan_stops_at_failure (L := MoreExamples.failing_lib) Examples.unlocked
             Examples.address3 Examples.address3 2).
    + reflexivity.
    + reflexivity.
    + unfold MAX_INDEX. lia.
    + apply (forall_below _ 2). vm_compute. reflexivity.
    + vm_compute. reflexivity.
  - apply (scan_stops_at_failure (L := Mock.lib) Examples.fresh
             Examples.address3 Examples.address3 0).
    + reflexivity.
    + reflexivity.
    + unfold MAX_INDEX. lia.
    + intros i Hi. lia.
    + reflexivity.
Defined.

(** ** The signature and the transaction built from it *)

(** The three components [signTransaction] cuts out of a signature are
    consecutive pieces of it: put together they are the signature again,
    whatever its length; of a signature of 65 bytes they are the first 32
    bytes, the next 32 and the last one; and a signature of at most 64
    bytes leaves the third empty.  What is sent to the device does not
    depend on them. *)
Theorem signature_components (sig : Buf) (d : TxData) :
  exists r s v,
    json_r (with_signature sig d) = Some r
    /\ json_s (with_signature sig d) = Some s
    /\ json_v (with_signature sig d) = Some v
    /\ r ++ s ++ v = sig
    /\ (length sig = 65%nat ->
        length r = 32%nat /\ length s = 32%nat /\ length v = 1%nat)
    /\ ((length sig <= 64)%nat -> v = [])
    /\ device_fields (with_signature sig d) = device_fields d.
Proof.
  exists (take 32 sig), (take 32 (drop 32 sig)), (drop 64 sig).
  split; [reflexivity |]. split; [reflexivity |]. split; [reflexivity |].
  split; [| split; [| split]].
  - change (drop 64 sig) with (drop (32 + 32) sig).
    rewrite <- drop_drop, (take_drop 32 (drop 32 sig)), take_drop. reflexivity.
  - intros H. rewrite !length_take, !length_drop, H. repeat split; lia.
  - intros H. apply drop_ge. lia.
  - reflexivity.
Qed.

Lemma signature_components_witness :
  exists r s v,
    json_r (with_signature Mock.deviceSignature Mock.tx0) = Some r
    /\ json_s (with_signature Mock.deviceSignature Mock.tx0) = Some s
    /\ json_v (with_signature Mock.deviceSignature Mock.tx0) = Some v
    /\ r ++ s ++ v = Mock.deviceSignature
    /\ length r = 32%nat /\ length s = 32%nat /\ length v = 1%nat.
Proof.
  destruct (signature_components Mock.deviceSignature Mock.tx0)
    as (r & s & v & Hr & Hs & Hv & Hcat & Hlen & _).
  exists r, s, v. repeat split; try assumption; apply (Hlen eq_refl).
Defined.

Section SignTransactionMore.

Context `{L : EthLib}.
Variable device : Device.

(** When the device signs and the signer recovered from the rebuilt
    transaction is the checksummed [address], [signTransaction] returns
    the transaction rebuilt from the caller's fields and the signature. *)
Theorem signTransaction_returns_rebuilt (address : string) (tx : Tx) (s : Session)
    (r : SignResponse) (sig : Buf) (signedTx : Tx) (a : string) :
  SecuxETH_signTransaction device (hdPath s) (sent_fields tx) = Normal (Some r) ->
  signature r = Some sig ->
  rebuilt tx sig = Normal signedTx ->
  recovered_signer signedTx = Normal a ->
  toChecksumAddress address = Normal a ->
  signTransaction device address tx s
  = (s, [EvSignTransaction (hdPath s) (sent_fields tx)], Normal signedTx).
Proof.
  intros Hdev Hsig Htx Ha Hb.
  rewrite signTransaction_steps, Hdev, Hsig, Htx, Ha, Hb, String.eqb_refl.
  reflexivity.
Qed.

(** [signTransaction] wraps nothing: a rejection by the device, and a
    failure to rebuild the transaction, to recover its signer or to
    checksum the address, is what [signTransaction] is rejected with, as
    it is; the session is unchanged and the device was asked once. *)
Theorem signTransaction_passes_failures (address : string) (tx : Tx) (s : Session)
    (e : Thrown) :
  let failed := (s, [EvSignTransaction (hdPath s) (sent_fields tx)], Throw e) in
  (SecuxETH_signTransaction device (hdPath s) (sent_fields tx) = Throw e ->
   signTransaction device address tx s = failed)
  /\ (forall r sig,
        SecuxETH_signTransaction device (hdPath s) (sent_fields tx) = Normal (Some r) ->
        signature r = Some sig ->
        rebuilt tx sig = Throw e ->
        signTransaction device address tx s = failed)
  /\ (forall r sig signedTx,
        SecuxETH_signTransaction device (hdPath s) (sent_fields tx) = Normal (Some r) ->
        signature r = Some sig ->
        rebuilt tx sig = Normal signedTx ->
        recovered_signer signedTx = Throw e ->
        signTransaction device address tx s = failed)
  /\ (forall r sig signedTx a,
        SecuxETH_signTransaction device (hdPath s) (sent_fields tx) = Normal (Some r) ->
        signature r = Some sig ->
        rebuilt tx sig = Normal signedTx ->
        recovered_signer signedTx = Normal a ->
        toChecksumAddress address = Throw e ->
        signTransaction device address tx s = failed).
Proof.
  intros failed. subst failed. repeat split.
  - intros Hdev. rewrite signTransaction_steps, Hdev. reflexivity.
  - intros r sig Hdev Hsig Htx.
    rewrite signTransaction_steps, Hdev, Hsig, Htx. reflexivity.
  - intros r sig signedTx Hdev Hsig Htx Ha.
    rewrite signTransaction_steps, Hdev, Hsig, Htx, Ha. reflexivity.
  - intros r sig signedTx a Hdev Hsig Htx Ha Hb.
    rewrite signTransaction_steps, Hdev, Hsig, Htx, Ha, Hb. reflexivity.
Qed.

End SignTransactionMore.

Lemma signTransaction_returns_rebuilt_witness :
  signTransaction (L := Mock.lib) Mock.device_ok Mock.deviceAddress Mock.tx0
                  Examples.fresh
  = (Examples.fresh,
     [EvSignTransaction hdPathString (sent_fields (L := Mock.lib) Mock.tx0)],
     Normal (with_signature Mock.deviceSignature Mock.tx0)).
Proof.
  apply (signTransaction_returns_rebuilt (L := Mock.lib) Mock.device_ok
           Mock.deviceAddress Mock.tx0 Examples.fresh
           (mkSignResponse (Some Mock.deviceSignature)) Mock.deviceSignature
           (with_signature Mock.deviceSignature Mock.tx0) Mock.deviceAddress);
    reflexivity.
Defined.

Lemma signTransaction_passes_failures_witness :
  signTransaction (L := Mock.lib) MoreExamples.device_rejecting Mock.deviceAddress
                  Mock.tx0 Examples.fresh
  = (Examples.fresh,
     [EvSignTransaction hdPathString (sent_fields (L := Mock.lib) Mock.tx0)],
     Throw (ThrownExn (Error "user rejected")))
  /\ signTransaction (L := Mock.lib) Mock.device_ok "2222" Mock.tx0 Examples.fresh
     = (Examples.fresh,
        [EvSignTransaction hdPathString (sent_fields (L := Mock.lib) Mock.tx0)],
        Throw (ThrownExn (Error "This method only supports 0x-prefixed hex strings"))).
Proof.
  split.
  - exact (proj1 (signTransaction_passes_failures (L := Mock.lib)
                    MoreExamples.device_rejecting Mock.deviceAddress Mock.tx0
                    Examples.fresh (ThrownExn (Error "user rejected"))) eq_refl).
  - destruct (signTransaction_passes_failures (L := Mock.lib) Mock.device_ok "2222"
                Mock.tx0 Examples.fresh
                (ThrownExn (Error "This method only supports 0x-prefixed hex strings")))
      as (_ & _ & _ & H).
    exact (H (mkSignResponse (Some Mock.deviceSignature)) Mock.deviceSignature
             (with_signature Mock.deviceSignature Mock.tx0) Mock.deviceAddress
             eq_refl eq_refl eq_refl eq_refl eq_refl).
Defined.

(** ** How signPersonalMessage ends *)

Lemma buf_toHex_length (b : Buf) :
  String.length (buf_toHex b) = (2 * length b)%nat.
Proof. induction b as [| x b IH]; cbn [buf_toHex String.length length]; lia. Qed.

Lemma str_or_not_empty x d : d <> "" -> str_or x d <> "".
Proof.
  intros Hd. unfold str_or. destruct x as [s |]; [| exact Hd].
  destruct (String.eqb_spec s ""); assumption.
Qed.

(** An [Error] that is wrapped again has its message prefixed. *)
Lemma wrap_error_Error m :
  m <> "" -> wrap_error (ThrownExn (Error m)) = Error ("Error: " +:+ m).
Proof.
  intros Hm. destruct m as [| c m]; [contradiction |]. reflexivity.
Qed.

Section SignPersonalMessageMore.

Context `{L : EthLib}.
Variable device : Device.

(** [signPersonalMessage] once the unlock has resolved and the path is
    known: the timer, the signing call, and what the promise settles
    with. *)
Lemma signPersonalMessage_signs withAccount message s s1 t1 status path :
  unlock device s = (s1, t1, Normal status) ->
  snd (_pathFromAddress withAccount s1) = Normal path ->
  signPersonalMessage device withAccount message s
  = (s1, t1 ++ [EvSetTimeout (popup_delay status); EvSignMessage path message],
     match SecuxETH_signMessage device path message with
     | Normal (Some r) =>
         match signature r with
         | Some sig => Fulfilled ("0x" +:+ buf_toHex sig)
         | None => Rejected (ThrownExn
                     (wrap_error (ThrownExn (TypeError (msg_read_undefined "toString")))))
         end
     | Normal None =>
         Rejected (ThrownExn
           (wrap_error (ThrownExn (TypeError (msg_read_null "payload")))))
     | Throw e => Rejected (ThrownExn (wrap_error e))
     end).
Proof.
  intros Hu Hp. unfold signPersonalMessage. rewrite Hu, bind_emit.
  unfold signPersonalMessage_callback. rewrite bind_pathFromAddress, Hp, bind_emit.
  unfold catch, bind, lift, ret, throw.
  destruct (SecuxETH_signMessage device path message) as [[r |] | e];
    [destruct (signature r) | |]; reflexivity.
Qed.

(** When the device signs the message, [signPersonalMessage] resolves
    with "0x" followed by the signature in lower-case hex, two digits a
    byte. *)
Theorem signPersonalMessage_resolves_hex (withAccount message : string)
    (s s1 : Session) (t1 : list Event) (status path : string)
    (r : SignResponse) (sig : Buf) :
  unlock device s = (s1, t1, Normal status) ->
  snd (_pathFromAddress withAccount s1) = Normal path ->
  SecuxETH_signMessage device path message = Normal (Some r) ->
  signature r = Some sig ->
  snd (signPersonalMessage device withAccount message s)
  = Fulfilled ("0x" +:+ buf_toHex sig)
  /\ String.length ("0x" +:+ buf_toHex sig) = (2 + 2 * length sig)%nat
  /\ buf_fromHex (buf_toHex sig) = sig
  /\ fst (fst (signPersonalMessage device withAccount message s)) = s1.
Proof.
  intros Hu Hp Hdev Hsig.
  rewrite (signPersonalMessage_signs _ _ _ _ _ _ _ Hu Hp), Hdev, Hsig.
  cbn [fst snd]. split; [reflexivity |]. split; [| split; [| reflexivity]].
  - change ("0x" +:+ buf_toHex sig) with (String "0" (String "x" (buf_toHex sig))).
    cbn [String.length]. rewrite buf_toHex_length. reflexivity.
  - clear. induction sig as [| x sig IH]; [reflexivity |].
    cbn [buf_toHex buf_fromHex]. rewrite IH. destruct x; reflexivity.
Qed.

(** When the signing call fails, [signPersonalMessage] is rejected with
    an [Error] whose message is the failure's text, or "Unknown error"
    when it has none; a [null] response is rejected as the [TypeError] it
    raises. *)
Theorem signPersonalMessage_rejects (withAccount message : string)
    (s s1 : Session) (t1 : list Event) (status path : string) :
  unlock device s = (s1, t1, Normal status) ->
  snd (_pathFromAddress withAccount s1) = Normal path ->
  (forall e,
      SecuxETH_signMessage device path message = Throw e ->
      snd (signPersonalMessage device withAccount message s)
      = Rejected (ThrownExn (Error (str_or (thrown_toString e) "Unknown error"))))
  /\ (SecuxETH_signMessage device path message = Normal None ->
      exists m,
        snd (signPersonalMessage device withAccount message s)
        = Rejected (ThrownExn (Error ("TypeError: " +:+ m)))).
Proof.
  intros Hu Hp. rewrite (signPersonalMessage_signs _ _ _ _ _ _ _ Hu Hp). cbn [snd].
  split.
  - intros e ->. reflexivity.
  - intros ->. eexists. reflexivity.
Qed.

(** When the unlock fails because the device cannot be reached,
    [signPersonalMessage] arms no timer and makes no signing call, and it
    is rejected with the error of [unlock] wrapped once more: the message
    is "Error: " followed by the message of [unlock]. *)
Theorem signPersonalMessage_unlock_fails (withAccount message : string)
    (s : Session) (e : Thrown) :
  isUnlocked s = false ->
  getXPublickey device (hdPath s) = Throw e ->
  signPersonalMessage device withAccount message s
  = (s, [EvGetXPublickey (hdPath s)],
     Rejected (ThrownExn (Error
       ("Error: " +:+ str_or (thrown_toString e) "Unknown error")))).
Proof.
  intros Hl He. unfold signPersonalMessage.
  rewrite (unlock_transport_failure device s e Hl He). cbv beta iota zeta.
  change (wrap_error e) with (Error (str_or (thrown_toString e) "Unknown error")).
  rewrite (wrap_error_Error (str_or (thrown_toString e) "Unknown error"))
    by (apply str_or_not_empty; discriminate).
  reflexivity.
Qed.

End SignPersonalMessageMore.

Lemma signPersonalMessage_resolves_hex_witness :
  snd (signPersonalMessage (L := Mock.lib) Mock.device_ok Examples.address3 "hello"
                           Examples.locked_with_hdk)
  = Fulfilled ("0x" +:+ buf_toHex Mock.deviceSignature).
Proof.
  exact (proj1 (signPersonalMessage_resolves_hex (L := Mock.lib) Mock.device_ok
                  Examples.address3 "hello" Examples.locked_with_hdk Examples.unlocked
                  [EvGetXPublickey hdPathString] "just unlocked" "m/44'/60'/0'/0/0/3"
                  (mkSignResponse (Some Mock.deviceSignature)) Mock.deviceSignature
                  ltac:(vm_compute; reflexivity) ltac:(vm_compute; reflexivity)
                  eq_refl eq_refl)).
Defined.

Lemma signPersonalMessage_rejects_witness :
  snd (signPersonalMessage (L := Mock.lib) MoreExamples.device_rejecting
         Examples.address3 "hello" Examples.unlocked)
  = Rejected (ThrownExn (Error "Error: user rejected")).
Proof.
  exact (proj1 (signPersonalMessage_rejects (L := Mock.lib)
                  MoreExamples.device_rejecting Examples.address3 "hello"
                  Examples.unlocked Examples.unlocked [] "already unlocked"
                  "m/44'/60'/0'/0/0/3"
                  ltac:(vm_compute; reflexivity) ltac:(vm_compute; reflexivity))
               (ThrownExn (Error "user rejected")) eq_refl).
Defined.

Lemma signPersonalMessage_unlock_fails_witness :
  signPersonalMessage (L := Mock.lib) Mock.device_unreachable Examples.address3
                      "hello" Examples.fresh
  = (Examples.fresh, [EvGetXPublickey hdPathString],
     Rejected (ThrownExn (Error "Error: Unknown error"))).
Proof.
  exact (signPersonalMessage_unlock_fails (L := Mock.lib) Mock.device_unreachable
           Examples.address3 "hello" Examples.fresh ThrownUndefined eq_refl eq_refl).
Defined.

Lemma signPersonalMessage_unsettled_witness :
  signPersonalMessage (L := Mock.lib) Mock.device_ok Examples.stranger "hello"
                      Examples.unlocked
  = (Examples.unlocked, [EvSetTimeout 0],
     Unsettled (ThrownExn UnknownAddressError)).
Proof.
  exact (signPersonalMessage_unsettled (L := Mock.lib) Mock.device_ok
           Examples.stranger "hello" Examples.unlocked Examples.unlocked []
           "already unlocked" (ThrownExn UnknownAddressError)
           ltac:(vm_compute; reflexivity) ltac:(vm_compute; reflexivity)).
Defined.

(** ** What unlock touches *)

Section UnlockMore.

Variable device : Device.

Lemma unlock_locked_trace s :
  isUnlocked s = false ->
  snd (fst (unlock device s)) = [EvGetXPublickey (hdPath s)].
Proof.
  intros Hl. unfold unlock. autorewrite with step. rewrite Hl.
  autorewrite with step. cbn [fst snd]. f_equal.
  unfold unlock_then, payload_buffer, assign_publicKey, assign_chainCode.
  unfold catch, bind, gets, throw, modify, lift, ret.
  destruct (getXPublickey device (hdPath s)) as [response | e]; simpl;
    [| reflexivity].
  destruct (success response); simpl; [| reflexivity].
  destruct (payload response) as [p |]; simpl; [| reflexivity].
  destruct (payload_publicKey p) as [pk |]; simpl; [| reflexivity].
  destruct (hdk s) as [k |]; simpl; [| reflexivity].
  destruct (payload_chainCode p) as [cc |]; simpl; reflexivity.
Qed.

(** [unlock] writes to the key and to nothing else, and it asks the
    device at most once: not at all when the session is unlocked, once,
    for [hdPath], when it is locked, whatever the answer. *)
Theorem unlock_touches_key_only (s : Session) :
  let s' := fst (fst (unlock device s)) in
  accounts s' = accounts s /\ page s' = page s /\ perPage s' = perPage s
  /\ unlockedAccount s' = unlockedAccount s /\ paths s' = paths s
  /\ hdPath s' = hdPath s
  /\ snd (fst (unlock device s))
     = (if isUnlocked s then [] else [EvGetXPublickey (hdPath s)])
  /\ (if isUnlocked s then s' = s /\ snd (unlock device s) = Normal "already unlocked"
      else True).
Proof.
  cbv zeta.
  rewrite (unlock_preserves device accounts (fun _ _ => eq_refl) s).
  rewrite (unlock_preserves device page (fun _ _ => eq_refl) s).
  rewrite (unlock_preserves device perPage (fun _ _ => eq_refl) s).
  rewrite (unlock_preserves device unlockedAccount (fun _ _ => eq_refl) s).
  rewrite (unlock_preserves device paths (fun _ _ => eq_refl) s).
  rewrite (unlock_preserves device hdPath (fun _ _ => eq_refl) s).
  do 6 (split; [reflexivity |]).
  destruct (isUnlocked s) eqn:Hl.
  - rewrite unlock_already by exact Hl. repeat split; reflexivity.
  - rewrite unlock_locked_trace by exact Hl. split; [reflexivity | exact I].
Qed.

(** A handshake that carries a key and no chain code is rejected, but not
    before the key is stored: the session then counts as unlocked, and the
    next [unlock] resolves "already unlocked" without asking the device,
    the chain code still missing. *)
Theorem unlock_stores_key_before_failing (s : Session) (k : HDKey) (pk : string)
    (err : option string) :
  hdk s = Some k ->
  hdk_publicKey k = None ->
  getXPublickey device (hdPath s)
  = Normal (mkXPubResponse true (Some (mkXPubPayload (Some pk) None err))) ->
  let s' := fst (fst (unlock device s)) in
  (exists m, snd (unlock device s) = Throw (ThrownExn (Error ("TypeError: " +:+ m))))
  /\ hdk s' = Some (mkHDKey (Some (buf_fromHex pk)) (hdk_chainCode k))
  /\ isUnlocked s' = true
  /\ unlock device s' = (s', [], Normal "already unlocked").
Proof.
  intros Hh Hk Hr.
  assert (E : unlock device s
    = (set_hdk (Some (mkHDKey (Some (buf_fromHex pk)) (hdk_chainCode k))) s,
       [EvGetXPublickey (hdPath s)],
       Throw (ThrownExn (wrap_error (ThrownExn (TypeError msg_buffer_from)))))).
  { unfold unlock. autorewrite with step.
    unfold isUnlocked. rewrite Hh, Hk. autorewrite with step.
    erewrite bind_Normal; cycle 1.
    { erewrite catch_Throw; cycle 1.
      - rewrite Hr. autorewrite with step.
        unfold unlock_then, payload_buffer, assign_publicKey, assign_chainCode. steps.
        rewrite Hh. steps. reflexivity.
      - reflexivity. }
    reflexivity. }
  cbv zeta. rewrite E. cbn [fst snd]. split; [| split; [| split]].
  - eexists. reflexivity.
  - reflexivity.
  - reflexivity.
  - apply unlock_already. reflexivity.
Qed.

End UnlockMore.

Lemma unlock_stores_key_before_failing_witness :
  isUnlocked (fst (fst (unlock MoreExamples.device_half Examples.locked_with_hdk)))
  = true
  /\ (exists m, snd (unlock MoreExamples.device_half Examples.locked_with_hdk)
                = Throw (ThrownExn (Error ("TypeError: " +:+ m)))).
Proof.
  destruct (unlock_stores_key_before_failing MoreExamples.device_half
              Examples.locked_with_hdk Mock.hdk_empty Mock.publicKeyHex None
              eq_refl eq_refl eq_refl)
    as (Hrej & _ & Hun & _).
  exact (conj Hun Hrej).
Defined.

(** ** Which method writes which field *)

Section Writers.

Context `{L : EthLib}.
Variable device : Device.

Lemma addAccounts_preserves {X} (f : Session -> X) n :
  (forall a s, f (set_accounts a s) = f s) ->
  (forall h s, f (set_hdk h s) = f s) ->
  (forall p s, f (set_page p s) = f s) ->
  preserves f (addAccounts device n).
Proof.
  intros Ha Hh Hp. unfold addAccounts.
  apply preserves_bind; [apply unlock_preserves; exact Hh | intros _].
  apply preserves_bind; [apply preserves_gets | intros from].
  apply preserves_bind; [| intros _; apply preserves_gets].
  apply preserves_for_steps. intros i acc. unfold addAccounts_body.
  apply preserves_bind; [apply _addressFromIndex_preserves | intros a].
  apply preserves_bind; [| intros _]; apply preserves_modify; intros s;
    [apply Ha | apply Hp].
Qed.

Lemma __getPage_preserves {X} (f : Session -> X) increment :
  (forall h s, f (set_hdk h s) = f s) ->
  (forall p s, f (set_page p s) = f s) ->
  (forall m s, f (set_paths m s) = f s) ->
  preserves f (__getPage device increment).
Proof.
  intros Hh Hp Hm. unfold __getPage.
  apply preserves_bind; [apply preserves_modify; intros s; apply Hp | intros _].
  apply preserves_bind; [apply preserves_gets | intros p].
  apply preserves_bind.
  { destruct (p <=? 0)%Z; [apply preserves_modify; intros s; apply Hp
                          | apply preserves_ret]. }
  intros _.
  apply preserves_bind; [apply unlock_preserves; exact Hh | intros _].
  apply preserves_bind; [apply preserves_gets | intros p'].
  apply preserves_bind; [apply preserves_gets | intros pp].
  apply preserves_for_steps. intros i acc.
  apply getPage_body_preserves. exact Hm.
Qed.

(** A part of the session that the setters of the accounts, the key and
    the page leave alone is left alone by a call, unless the call is one
    that may write it. *)
Lemma after_call_preserves {X} (f : Session -> X) c s :
  (forall a s, f (set_accounts a s) = f s) ->
  (forall h s, f (set_hdk h s) = f s) ->
  (forall p s, f (set_page p s) = f s) ->
  (requests_page c = true -> forall m s, f (set_paths m s) = f s) ->
  (sets_cursor c = true -> forall u s, f (set_unlockedAccount u s) = f s) ->
  (restores_accounts c = true ->
   (forall p s, f (set_hdPath p s) = f s) /\ (forall p s, f (set_perPage p s) = f s)) ->
  f (after_call device c s) = f s.
Proof.
  intros Ha Hh Hp Hm Hu Hd.
  pose proof (unlock_preserves device f Hh s) as Hun.
  destruct c; cbn [after_call].
  - destruct (Hd eq_refl) as [Hd1 Hd2]. unfold deserialize.
    rewrite !bind_modify. unfold modify. cbn [fst].
    rewrite Hd2, Hp, Ha, Hd1. reflexivity.
  - reflexivity.
  - exact Hun.
  - apply (Hu eq_refl).
  - apply addAccounts_preserves; assumption.
  - destruct r; cbn [request_page]; unfold getFirstPage, getNextPage, getPreviousPage;
      try rewrite bind_modify;
      rewrite (__getPage_preserves f _ Hh Hp (Hm eq_refl)); try apply Hp; reflexivity.
  - rewrite getAccounts_steps.
    destruct (SecuxETH_getAddress device (hdPath s)); [apply Ha | reflexivity].
  - unfold removeAccount. rewrite bind_gets.
    destruct (negb _); [reflexivity | apply Ha].
  - rewrite signTransaction_steps. reflexivity.
  - unfold signMessage. rewrite signPersonalMessage_session. exact Hun.
  - rewrite signPersonalMessage_session. exact Hun.
  - reflexivity.
  - reflexivity.
  - apply Ha.
Qed.

(** Each of these fields has one writer.  Only [deserialize] changes the
    path template and the page size, only [setAccountToUnlock] the
    account cursor, and only the page requests the path index: every
    other call, [forgetDevice] among them, leaves them as they were,
    however it ends. *)
Theorem fields_have_one_writer (c : Call) (s : Session) :
  (restores_accounts c = false ->
   hdPath (after_call device c s) = hdPath s
   /\ perPage (after_call device c s) = perPage s)
  /\ (sets_cursor c = false ->
      unlockedAccount (after_call device c s) = unlockedAccount s)
  /\ (requests_page c = false -> paths (after_call device c s) = paths s).
Proof.
  split; [| split]; intros Hc; [split | |]; apply after_call_preserves;
    first [ reflexivity
          | intros H; congruence
          | intros _; reflexivity
          | intros _; split; reflexivity ].
Qed.

(** The sessions a constructed keyring can be in: no key, an empty path
    index, a page size other than 0. *)
Lemma reachable_shape s :
  reachable device s -> hdk s = None /\ paths s = ∅ /\ perPage s <> 0.
Proof.
  intros Hr. induction Hr as [opts | c s Hr (Hh & Hp & Hpp)].
  - rewrite constructor_fields_of. cbn [hdk paths perPage].
    repeat split. unfold num_or. destruct (opts_perPage opts) as [n |]; [| lia].
    destruct (Z.eqb_spec n 0); lia.
  - destruct (after_call_keeps_null_hdk device c s (conj Hh Hp)) as [Hh' Hp'].
    repeat split; try assumption.
    destruct (restores_accounts c) eqn:Hc.
    + destruct c; try discriminate Hc.
      cbn [after_call]. rewrite deserialize_fields. cbn [fst perPage].
      unfold num_or. destruct (opts_perPage opts) as [n |]; [| lia].
      destruct (Z.eqb_spec n 0); lia.
    + rewrite (after_call_preserves perPage); [exact Hpp | ..];
        first [ reflexivity
              | intros H; congruence
              | intros _; reflexivity ].
Qed.

(** From a keyring that only its constructor and its methods have
    touched, a snapshot brings back everything it is meant to: the
    session built from the snapshot has the same accounts, path index,
    page and page size, and is locked. *)
Theorem reachable_roundtrip_exact (s : Session) :
  reachable device s -> roundtrip_exact s.
Proof.
  intros Hr. destruct (reachable_shape s Hr) as (Hh & Hp & Hpp).
  unfold roundtrip_exact. rewrite constructor_fields_of.
  cbn [snapshot_opts snapshot_of opts_page opts_accounts opts_perPage opts_hdPath
       snap_page snap_accounts snap_perPage snap_hdPath
       accounts page perPage hdPath paths unlockedAccount hdk].
  rewrite num_or_Some_0, Hp. repeat split; try reflexivity.
  unfold num_or. destruct (Z.eqb_spec (perPage s) 0); [contradiction | reflexivity].
Qed.

(** [forgetDevice] empties the accounts and then fails, on the [HDKey]
    that the module does not bind: the key, the page, the account cursor
    and the path index are not reset, so a keyring that was unlocked still
    is, and [unlock] resolves "already unlocked" without the device. *)
Theorem forgetDevice_forgets_accounts_only (s : Session) :
  let s' := fst (fst (forgetDevice s)) in
  (exists m, snd (forgetDevice s) = Throw (ThrownExn (ReferenceError m)))
  /\ accounts s' = []
  /\ hdk s' = hdk s /\ page s' = page s /\ unlockedAccount s' = unlockedAccount s
  /\ paths s' = paths s /\ perPage s' = perPage s /\ hdPath s' = hdPath s
  /\ (isUnlocked s = true -> unlock device s' = (s', [], Normal "already unlocked")).
Proof.
  cbv zeta. split; [eexists; reflexivity |].
  do 7 (split; [reflexivity |]).
  intros Hu. apply unlock_already. exact Hu.
Qed.

End Writers.

Lemma fields_have_one_writer_witness :
  paths (after_call (L := Mock.lib) Mock.device_ok CallForgetDevice Examples.indexed)
  = paths Examples.indexed
  /\ unlockedAccount (after_call (L := Mock.lib) Mock.device_ok (CallAddAccounts 2)
                                 Examples.unlocked) = 0.
Proof.
  split.
  - exact (proj2 (proj2 (fields_have_one_writer (L := Mock.lib) Mock.device_ok
                           CallForgetDevice Examples.indexed)) eq_refl).
  - exact (proj1 (proj2 (fields_have_one_writer (L := Mock.lib) Mock.device_ok
                           (CallAddAccounts 2) Examples.unlocked)) eq_refl).
Defined.

Lemma reachable_roundtrip_exact_witness :
  roundtrip_exact
    (after_call (L := Mock.lib) Mock.device_ok (CallGetPage NextPage)
       (after_call (L := Mock.lib) Mock.device_ok CallGetAccounts
          (constructor no_opts))).
Proof.
  apply (reachable_roundtrip_exact (L := Mock.lib) Mock.device_ok).
  apply reachable_call, reachable_call, reachable_new.
Defined.

Lemma forgetDevice_forgets_accounts_only_witness :
  unlock Mock.device_ok (fst (fst (forgetDevice Examples.indexed)))
  = (fst (fst (forgetDevice Examples.indexed)), [], Normal "already unlocked").
Proof.
  destruct (forgetDevice_forgets_accounts_only Mock.device_ok Examples.indexed)
    as (_ & _ & _ & _ & _ & _ & _ & _ & H).
  exact (H eq_refl).
Defined.

Lemma reachable_never_unlocked_witness :
  isUnlocked (after_call (L := Mock.lib) Mock.device_ok CallUnlock
                (after_call (L := Mock.lib) Mock.device_ok CallGetAccounts
                   (constructor no_opts))) = false.
Proof.
  destruct (reachable_never_unlocked (L := Mock.lib) Mock.device_ok
              (after_call (L := Mock.lib) Mock.device_ok CallUnlock
                 (after_call (L := Mock.lib) Mock.device_ok CallGetAccounts
                    (constructor no_opts))))
    as (_ & _ & H & _).
  - apply reachable_call, reachable_call, reachable_new.
  - exact H.
Defined.

Lemma page_floor_kept_witness :
  1 <= page (after_call (L := Mock.lib) Mock.device_ok CallGetAccounts
              (set_page 2 Examples.fresh)).
Proof.
  apply (page_floor_kept (L := Mock.lib) Mock.device_ok CallGetAccounts
           (set_page 2 Examples.fresh) eq_refl).
  vm_compute. discriminate.
Defined.

(** ** A page request that fails *)

Section PageFailure.

Context `{L : EthLib}.
Variable device : Device.

(** [__getPage] moves the cursor before it unlocks: when the unlock
    fails, the request is rejected with the error of [unlock] as it is,
    nothing is derived or written to the path index, and the cursor stays
    moved. *)
Theorem getPage_fails_after_moving (increment : Z) (s s1 : Session)
    (t1 : list Event) (e : Thrown) :
  let p := Z.max (page s + increment) 1 in
  unlock device (set_page p s) = (s1, t1, Throw e) ->
  __getPage device increment s = (s1, t1, Throw e)
  /\ page s1 = p
  /\ paths s1 = paths s
  /\ accounts s1 = accounts s.
Proof.
  intros p Hu.
  pose proof (unlock_preserves device page (fun _ _ => eq_refl) (set_page p s)) as Hpg.
  pose proof (unlock_preserves device paths (fun _ _ => eq_refl) (set_page p s)) as Hpa.
  pose proof (unlock_preserves device accounts (fun _ _ => eq_refl) (set_page p s)) as Hac.
  rewrite Hu in Hpg, Hpa, Hac. cbn [fst page paths accounts set_page] in Hpg, Hpa, Hac.
  rewrite __getPage_moves. fold p. erewrite bind_Throw by exact Hu.
  repeat split; assumption.
Qed.

End PageFailure.

Lemma getPage_fails_after_moving_witness :
  page (fst (fst (getNextPage (L := Mock.lib) Mock.device_ok
                    (fst (fst (getNextPage (L := Mock.lib) Mock.device_ok
                                 Examples.fresh))))))
  = 2.
Proof.
  destruct (getPage_fails_after_moving (L := Mock.lib) Mock.device_ok 1
              Examples.fresh (set_page 1 Examples.fresh)
              [EvGetXPublickey hdPathString]
              (ThrownExn (Error
                 "TypeError: Cannot set properties of null (setting 'publicKey')"))
              ltac:(vm_compute; reflexivity)) as (E1 & _).
  destruct (getPage_fails_after_moving (L := Mock.lib) Mock.device_ok 1
              (set_page 1 Examples.fresh) (set_page 2 Examples.fresh)
              [EvGetXPublickey hdPathString]
              (ThrownExn (Error
                 "TypeError: Cannot set properties of null (setting 'publicKey')"))
              ltac:(vm_compute; reflexivity)) as (E2 & _).
  unfold getNextPage. rewrite E1. cbn [fst]. rewrite E2. reflexivity.
Defined.

(** ** The page between two resets *)

Section PageBetweenResets.

Context `{L : EthLib}.
Variable device : Device.

(** The page has three writers: the page requests, [deserialize] and
    [addAccounts]. *)
Lemma after_call_page c s :
  resets_page c = false -> requests_page c = false ->
  page (after_call device c s) = page s.
Proof.
  intros Hc Hr.
  pose proof (unlock_preserves device page (fun _ _ => eq_refl) s) as Hu.
  destruct c; try discriminate Hc; try discriminate Hr; cbn [after_call].
  - reflexivity.
  - exact Hu.
  - reflexivity.
  - rewrite getAccounts_steps.
    destruct (SecuxETH_getAddress device (hdPath s)); reflexivity.
  - unfold removeAccount. rewrite bind_gets. destruct (negb _); reflexivity.
  - rewrite signTransaction_steps. reflexivity.
  - unfold signMessage. rewrite signPersonalMessage_session. exact Hu.
  - rewrite signPersonalMessage_session. exact Hu.
  - reflexivity.
  - reflexivity.
  - reflexivity.
Qed.

Lemma after_calls_floor cs : forall s,
  Forall (fun c => resets_page c = false) cs ->
  1 <= page s -> 1 <= page (after_calls device cs s).
Proof.
  induction cs as [| c cs IH]; intros s Hcs Hs; cbn [after_calls]; [exact Hs |].
  inversion Hcs as [| ? ? Hc Hcs']; subst. apply IH; [exact Hcs' |].
  destruct (requests_page c) eqn:Hr.
  - destruct c; try discriminate Hr. cbn [after_call]. apply request_page_floor.
  - rewrite after_call_page by assumption. exact Hs.
Qed.

(** C10, amended: [getNextPage] sets the page to the larger of the page
    plus 1 and 1, [getPreviousPage] to the larger of the page minus 1 and
    1, and [getFirstPage] to 1, so after a page request the page is at
    least 1.  No other method writes the page except [deserialize], which
    sets it to the page of its argument, or 0, and [addAccounts]; so once a
    page has been requested the page is at least 1 after any calls that
    follow, as long as none of them is [deserialize] or [addAccounts]. *)
Theorem pagination_floor_until_reset :
  (forall s, page (fst (fst (getNextPage device s))) = Z.max (page s + 1) 1)
  /\ (forall s, page (fst (fst (getPreviousPage device s))) = Z.max (page s - 1) 1)
  /\ (forall s, page (fst (fst (getFirstPage device s))) = 1)
  /\ (forall r s, 1 <= page (fst (fst (request_page device r s))))
  /\ (forall c s,
        resets_page c = false -> requests_page c = false ->
        page (after_call device c s) = page s)
  /\ (forall r cs s,
        Forall (fun c => resets_page c = false) cs ->
        page_floor_after device r cs s)
  /\ (forall opts s,
        page (fst (fst (deserialize opts s))) = num_or (opts_page opts) 0).
Proof.
  split; [| split; [| split; [| split; [| split; [| split]]]]].
  - intros s. unfold getNextPage. apply __getPage_page.
  - intros s. unfold getPreviousPage. rewrite __getPage_page. reflexivity.
  - intros s. unfold getFirstPage. rewrite bind_modify, __getPage_page. reflexivity.
  - apply request_page_floor.
  - apply after_call_page.
  - intros r cs s Hcs. unfold page_floor_after.
    apply after_calls_floor; [exact Hcs | apply request_page_floor].
  - intros opts s. rewrite deserialize_fields. reflexivity.
Qed.

End PageBetweenResets.

Lemma pagination_floor_until_reset_witness :
  page_floor_after (L := Mock.lib) Mock.device_ok PreviousPage
    [CallGetAccounts; CallGetPage PreviousPage; CallUnlock; CallForgetDevice;
     CallRemoveAccount Mock.deviceAddress; CallGetPage NextPage]
    (constructor no_opts)
  /\ page (after_call (L := Mock.lib) Mock.device_ok CallForgetDevice
             (set_page 3 Examples.fresh)) = 3.
Proof.
  destruct (pagination_floor_until_reset (L := Mock.lib) Mock.device_ok)
    as (_ & _ & _ & _ & Hsame & Hfloor & _).
  split.
  - apply Hfloor. repeat constructor.
  - exact (Hsame CallForgetDevice (set_page 3 Examples.fresh) eq_refl eq_refl).
Defined.

(** C10, as written, fails: on a newly constructed keyring, [getFirstPage]
    followed by [deserialize] without a page leaves the page at 0; and in
    an unlocked session so does [getFirstPage] followed by
    [addAccounts]. *)
Lemma page_reset_after_request :
  ~ page_floor_after (L := Mock.lib) Mock.device_ok FirstPage
      [CallDeserialize no_opts] (constructor no_opts)
  /\ ~ page_floor_after (L := Mock.lib) Mock.device_ok FirstPage
      [CallAddAccounts 1] Examples.unlocked.
Proof.
  split; unfold page_floor_after; intros H; vm_compute in H; apply H; reflexivity.
Qed.
